(** * Session transport layer of BrebisKingActivity

  A shallow embedding of the TypeScript/JavaScript client:
  - the WebSocket connection manager (websocket.ts): address resolution,
    connect / disconnect / joinInstance, the socket callbacks, the
    subscriber lists and the reconnection timer;
  - the participant reconciliation of the Discord activity client
    (fetchParticipants / updateParticipants);
  - the Ably relay health probe (checkConnectionState).

  Module-level [let] variables become fields of an explicit state record;
  browser objects (sockets, timers, the clock) are part of that record so
  that asynchronous callbacks can be delivered as explicit steps. *)

From Stdlib Require Import String Ascii List ZArith Bool Arith Lia DecimalString.
Import ListNotations.
Open Scope string_scope.

(** ** JavaScript string primitives *)

Module JsString.

(** [s.startsWith(p)] *)
Fixpoint startsWith (s p : string) {struct p} : bool :=
  match p with
  | EmptyString => true
  | String a p' =>
      match s with
      | EmptyString => false
      | String b s' => Ascii.eqb a b && startsWith s' p'
      end
  end.

(** [s.endsWith(p)]: some suffix of [s] is [p]. *)
Fixpoint endsWith (s p : string) : bool :=
  if String.eqb s p then true
  else match s with
       | EmptyString => false
       | String _ s' => endsWith s' p
       end.

(** [s.includes(p)]: [p] is a prefix of some suffix of [s]. *)
Fixpoint includes (s p : string) : bool :=
  if startsWith s p then true
  else match s with
       | EmptyString => false
       | String _ s' => includes s' p
       end.

(** [s.split(sep)[0]] for a one-character separator. *)
Fixpoint split_head (sep : ascii) (s : string) : string :=
  match s with
  | EmptyString => EmptyString
  | String c s' => if Ascii.eqb c sep then EmptyString
                   else String c (split_head sep s')
  end.

(** [s.slice(n)] *)
Fixpoint slice (n : nat) (s : string) : string :=
  match n, s with
  | O, _ => s
  | S _, EmptyString => EmptyString
  | S n', String _ s' => slice n' s'
  end.

(** [s.replace(/^https?:\/\//, '')] *)
Definition strip_http_scheme (s : string) : string :=
  if startsWith s "https://" then slice 8 s
  else if startsWith s "http://" then slice 7 s
  else s.

(** Truthiness of a string: only the empty string is falsy. *)
Definition truthy (s : string) : bool := negb (String.eqb s "").

(** [x || y] on an optional string ([undefined] / [null] as [None]). *)
Definition or_else (x : option string) (y : option string) : option string :=
  match x with
  | Some s => if truthy s then Some s else y
  | None => y
  end.

(** [arr.join(sep)] *)
Fixpoint join (sep : string) (l : list string) : string :=
  match l with
  | [] => ""
  | [x] => x
  | x :: rest => x ++ sep ++ join sep rest
  end.

End JsString.

(** ** JavaScript values (parsed JSON, SDK responses) *)

Local Set Warnings "-register-all".

Inductive JSValue : Type :=
| JUndefined
| JNull
| JBool (b : bool)
| JNum (n : Z)
| JStr (s : string)
| JArr (items : list JSValue)
| JObj (fields : list (string * JSValue)).

Module Js.

(** ToBoolean. Arrays and objects are truthy even when empty. *)
Definition truthy (v : JSValue) : bool :=
  match v with
  | JUndefined | JNull => false
  | JBool b => b
  | JNum n => negb (Z.eqb n 0)
  | JStr s => JsString.truthy s
  | JArr _ | JObj _ => true
  end.

Definition isArray (v : JSValue) : bool :=
  match v with JArr _ => true | _ => false end.

(** [typeof v === 'object'] *)
Definition typeof_object (v : JSValue) : bool :=
  match v with JNull | JArr _ | JObj _ => true | _ => false end.

Fixpoint lookup (k : string) (fs : list (string * JSValue)) : option JSValue :=
  match fs with
  | [] => None
  | (k', v) :: rest => if String.eqb k' k then Some v else lookup k rest
  end.

(** Own-property read [v.k] on a value that is not [null]/[undefined]:
    a missing property reads as [undefined]. *)
Definition get (v : JSValue) (k : string) : JSValue :=
  match v with
  | JObj fs => match lookup k fs with Some x => x | None => JUndefined end
  | _ => JUndefined
  end.

(** [Object.keys(v)] *)
Definition keys (v : JSValue) : list string :=
  match v with
  | JObj fs => map fst fs
  | _ => []
  end.

Definition has_key (v : JSValue) (k : string) : bool :=
  match v with
  | JObj fs => match lookup k fs with Some _ => true | None => false end
  | _ => false
  end.

End Js.

(** ** websocket.ts: the connection manager

    The browser is taken as follows. [new WebSocket(url)] raises for an
    address it rejects (one that does not parse) and otherwise returns a fresh
    socket in state CONNECTING; [close()] moves a connecting or open socket
    to CLOSING; the open, message, error and close events of a socket arrive
    later, each as a task of its own. [setTimeout] returns a positive handle
    and its callback runs as a task once the delay has passed, unless
    [clearTimeout] removed it. The logger and the UI helpers are taken not to
    raise; the constructor and the subscribers may. The sockets that
    [testConnection] opens for diagnosis are not part of the manager and are
    left out. *)

Module WebSocketClient.

Import JsString.

(** [window.location] as far as the module reads it. *)
Record Location := mkLocation {
  protocol : string;   (* window.location.protocol, e.g. "https:" *)
  host : string        (* window.location.host *)
}.

(** Subscribers are function objects compared by reference; a natural
    number stands for the reference. *)
Definition Handler := nat.

(** What a call ends with: a value, or an exception. *)
Inductive JSError :=
| SyntaxError
| TypeError
| SecurityError
| HandlerError (h : Handler).

Inductive Completion (A : Type) :=
| Normal (a : A)
| Thrown (e : JSError).
Arguments Normal {A} a.
Arguments Thrown {A} e.

(** What the module takes from its surroundings: the page address, the build
    environment, the JSON parser, the behaviour of the subscribed callbacks
    (application code outside the module), of which the model keeps whether
    a call raises, and the addresses the WebSocket constructor rejects, with
    the exception it raises for them (a SyntaxError for an address that does
    not parse, a SecurityError where the browser refuses an insecure address
    on a secure page). *)
Record Env := mkEnv {
  location : Location;
  VITE_WS_HOST : option string;              (* import.meta.env.VITE_WS_HOST *)
  JSON_parse : string -> option JSValue;     (* None: SyntaxError *)
  raises : Handler -> list JSValue -> bool;
  WebSocket_throws : string -> option JSError  (* None: the constructor returns *)
}.

Record UserInfo := mkUserInfo {
  userId : string;
  username : string;
  instanceId : option string;
  activityId : option string
}.

Inductive ReadyState := CONNECTING | OPEN | CLOSING | CLOSED.

(** A browser WebSocket object: its address, its state, and the frames
    handed to [send] so far (before [JSON.stringify]). *)
Record WebSocket := mkWebSocket {
  url : string;
  readyState : ReadyState;
  outbox : list JSValue
}.

(** A pending [window.setTimeout]; every timeout of this module runs the
    reconnect closure. *)
Record Timer := mkTimer {
  handle : nat;
  due : Z
}.

Inductive Level := info | warn | error.

Inductive EventKind :=
| message | userJoined | userLeft | connect_ev | disconnect_ev | error_ev.

Record Subscribers := mkSubscribers {
  onMessageHandlers : list Handler;
  onUserJoinedHandlers : list Handler;
  onUserLeftHandlers : list Handler;
  onConnectHandlers : list Handler;
  onDisconnectHandlers : list Handler;
  onErrorHandlers : list Handler
}.

(** The module variables, then the browser objects they refer to, then what
    an observer sees (console lines, subscriber invocations). A socket
    reference is an index into [sockets]. *)
Record State := mkState {
  socket : option nat;
  connected : bool;
  userInfo : option UserInfo;
  reconnectTimer : option nat;
  customServerUrl : option string;
  subscribers : Subscribers;
  sockets : list WebSocket;
  timers : list Timer;
  timer_count : nat;
  now : Z;
  console : list (Level * string);
  calls : list (Handler * list JSValue)
}.

Definition init : State :=
  mkState None false None None None (mkSubscribers [] [] [] [] [] [])
          [] [] 0 0%Z [] [].

Definition set_socket (v : option nat) (st : State) : State :=
  mkState v (connected st) (userInfo st) (reconnectTimer st) (customServerUrl st)
          (subscribers st) (sockets st) (timers st) (timer_count st) (now st)
          (console st) (calls st).

Definition set_connected (v : bool) (st : State) : State :=
  mkState (socket st) v (userInfo st) (reconnectTimer st) (customServerUrl st)
          (subscribers st) (sockets st) (timers st) (timer_count st) (now st)
          (console st) (calls st).

Definition set_userInfo (v : option UserInfo) (st : State) : State :=
  mkState (socket st) (connected st) v (reconnectTimer st) (customServerUrl st)
          (subscribers st) (sockets st) (timers st) (timer_count st) (now st)
          (console st) (calls st).

Definition set_reconnectTimer (v : option nat) (st : State) : State :=
  mkState (socket st) (connected st) (userInfo st) v (customServerUrl st)
          (subscribers st) (sockets st) (timers st) (timer_count st) (now st)
          (console st) (calls st).

Definition set_customServerUrl (v : option string) (st : State) : State :=
  mkState (socket st) (connected st) (userInfo st) (reconnectTimer st) v
          (subscribers st) (sockets st) (timers st) (timer_count st) (now st)
          (console st) (calls st).

Definition set_subscribers (v : Subscribers) (st : State) : State :=
  mkState (socket st) (connected st) (userInfo st) (reconnectTimer st) (customServerUrl st)
          v (sockets st) (timers st) (timer_count st) (now st)
          (console st) (calls st).

Definition set_sockets (v : list WebSocket) (st : State) : State :=
  mkState (socket st) (connected st) (userInfo st) (reconnectTimer st) (customServerUrl st)
          (subscribers st) v (timers st) (timer_count st) (now st)
          (console st) (calls st).

Definition set_timers (v : list Timer) (n : nat) (st : State) : State :=
  mkState (socket st) (connected st) (userInfo st) (reconnectTimer st) (customServerUrl st)
          (subscribers st) (sockets st) v n (now st)
          (console st) (calls st).

Definition set_now (v : Z) (st : State) : State :=
  mkState (socket st) (connected st) (userInfo st) (reconnectTimer st) (customServerUrl st)
          (subscribers st) (sockets st) (timers st) (timer_count st) v
          (console st) (calls st).

Definition set_console (v : list (Level * string)) (st : State) : State :=
  mkState (socket st) (connected st) (userInfo st) (reconnectTimer st) (customServerUrl st)
          (subscribers st) (sockets st) (timers st) (timer_count st) (now st)
          v (calls st).

Definition set_calls (v : list (Handler * list JSValue)) (st : State) : State :=
  mkState (socket st) (connected st) (userInfo st) (reconnectTimer st) (customServerUrl st)
          (subscribers st) (sockets st) (timers st) (timer_count st) (now st)
          (console st) v.

(** *** Browser primitives *)

(** [new WebSocket(u)]: the exception of the constructor, or a fresh object
    in state CONNECTING. *)
Definition new_WebSocket (env : Env) (u : string) (st : State)
  : Completion nat * State :=
  match WebSocket_throws env u with
  | Some e => (Thrown e, st)
  | None =>
      (Normal (length (sockets st)),
       set_sockets (sockets st ++ [mkWebSocket u CONNECTING []]) st)
  end.

Fixpoint update_socket (ref : nat) (f : WebSocket -> WebSocket)
         (l : list WebSocket) : list WebSocket :=
  match l, ref with
  | [], _ => []
  | w :: rest, O => f w :: rest
  | w :: rest, S r => w :: update_socket r f rest
  end.

Definition ws_readyState (ref : nat) (st : State) : option ReadyState :=
  option_map readyState (nth_error (sockets st) ref).

Definition with_readyState (r : ReadyState) (w : WebSocket) : WebSocket :=
  mkWebSocket (url w) r (outbox w).

(** [ws.close()]: starts the closing handshake; the close event comes later. *)
Definition ws_close (ref : nat) (st : State) : State :=
  set_sockets
    (update_socket ref
       (fun w => match readyState w with
                 | CONNECTING | OPEN => with_readyState CLOSING w
                 | _ => w
                 end)
       (sockets st)) st.

(** [ws.send(frame)] *)
Definition ws_send (ref : nat) (frame : JSValue) (st : State) : State :=
  set_sockets
    (update_socket ref
       (fun w => mkWebSocket (url w) (readyState w) (outbox w ++ [frame]))
       (sockets st)) st.

(** [window.setTimeout(reconnect, delay)]: handles are positive. *)
Definition setTimeout (delay : Z) (st : State) : nat * State :=
  let h := S (timer_count st) in
  (h, set_timers (timers st ++ [mkTimer h (now st + delay)]) h st).

Definition clearTimeout (h : nat) (st : State) : State :=
  set_timers (filter (fun t => negb (Nat.eqb (handle t) h)) (timers st))
             (timer_count st) st.

(** *** Address resolution *)

(** [getWebSocketUrl], with the module variable [customServerUrl] passed
    explicitly. [if (customServerUrl)] holds for a non-empty string, which is
    what [or_else _ None] keeps. *)
Definition getWebSocketUrl (env : Env) (customServerUrl : option string) : string :=
  match or_else customServerUrl None with
  | Some custom =>
      let protocol := if startsWith custom "https" then "wss:" else "ws:" in
      let serverUrl := strip_http_scheme custom in
      let serverUrl :=
        if negb (endsWith serverUrl "/ws")
        then (if endsWith serverUrl "/" then serverUrl ++ "ws" else serverUrl ++ "/ws")
        else serverUrl in
      protocol ++ "//" ++ serverUrl
  | None =>
      let isDiscordHost := includes (host (location env)) "discordsays.com" in
      if isDiscordHost then
        let clientId := split_head "."%char (host (location env)) in
        let protocol :=
          if String.eqb (protocol (location env)) "https:" then "wss:" else "ws:" in
        protocol ++ "//" ++ clientId ++ ".discordsays.com/.proxy/ws"
      else
        let protocol :=
          if String.eqb (protocol (location env)) "https:" then "wss:" else "ws:" in
        let host :=
          match or_else (VITE_WS_HOST env) None with
          | Some h => h
          | None => host (location env)
          end in
        protocol ++ "//" ++ host ++ "/ws"
  end.

(** *** Exported functions *)

Section Manager.

Variable env : Env.

(** State with exceptions: what a call did before it raised stays done. *)

Definition Eff (A : Type) : Type := State -> Completion A * State.

Definition ret {A} (a : A) : Eff A := fun st => (Normal a, st).

Definition throw {A} (e : JSError) : Eff A := fun st => (Thrown e, st).

Definition bind {A B} (c : Eff A) (k : A -> Eff B) : Eff B :=
  fun st =>
    match c st with
    | (Normal a, st') => k a st'
    | (Thrown e, st') => (Thrown e, st')
    end.

Definition try_catch {A} (c : Eff A) (handler : JSError -> Eff A) : Eff A :=
  fun st =>
    match c st with
    | (Normal a, st') => (Normal a, st')
    | (Thrown e, st') => handler e st'
    end.

Definition modify (f : State -> State) : Eff unit := fun st => (Normal tt, f st).

Definition gets {A} (f : State -> A) : Eff A := fun st => (Normal (f st), st).

Declare Scope eff_scope.
Delimit Scope eff_scope with eff.
Notation "x <- c1 ;; c2" := (bind c1 (fun x => c2))
  (at level 61, c1 at next level, right associativity) : eff_scope.
Notation "c1 ;; c2" := (bind c1 (fun _ => c2))
  (at level 61, right associativity) : eff_scope.
Local Open Scope eff_scope.

(** [clientLog(level, message, data?)]: the console line, without its
    timestamp and data argument. *)
Definition clientLog (lvl : Level) (msg : string) (st : State) : State :=
  set_console (console st ++ [(lvl, msg)]) st.

Definition opt_field (k : string) (v : option string) : list (string * JSValue) :=
  match v with
  | Some s => [(k, JStr s)]
  | None => []
  end.

(** The own properties of a [UserInfo] object that [JSON.stringify] keeps. *)
Definition userInfo_fields (u : UserInfo) : list (string * JSValue) :=
  [("userId", JStr (userId u)); ("username", JStr (username u))]
    ++ opt_field "instanceId" (instanceId u)
    ++ opt_field "activityId" (activityId u).

(** The object literal [{ type, ...data }]. *)
Definition frame (type : string) (data : list (string * JSValue)) : JSValue :=
  let ty := match Js.lookup "type" data with
            | Some v => v
            | None => JStr type
            end in
  JObj (("type", ty) :: filter (fun kv => negb (String.eqb (fst kv) "type")) data).

Definition send (type : string) (data : list (string * JSValue))
           (st : State) : bool * State :=
  match socket st with
  | Some ref =>
      match ws_readyState ref st with
      | Some OPEN =>
          let st := clientLog info ("Sending " ++ type ++ " message") st in
          (true, ws_send ref (frame type data) st)
      | _ => (false, clientLog error "Cannot send message - not connected" st)
      end
  | None => (false, clientLog error "Cannot send message - not connected" st)
  end.

Definition sendMessage (msg : string) (st : State) : bool * State :=
  send "message" [("message", JStr msg)] st.

Definition isConnected (st : State) : bool := connected st.

(** The object [getConnectionInfo] returns. *)
Record ConnectionInfo := mkConnectionInfo {
  info_connected : bool;
  info_userInfo : option UserInfo;
  info_url : string;
  info_isDiscordHost : bool;
  info_customServer : option string
}.

Definition getConnectionInfo (st : State) : ConnectionInfo :=
  let isDiscordHost := includes (host (location env)) "discordsays.com" in
  mkConnectionInfo (connected st) (userInfo st)
                   (getWebSocketUrl env (customServerUrl st))
                   isDiscordHost (customServerUrl st).

(** [if (reconnectTimer) { clearTimeout(reconnectTimer); reconnectTimer = null; }] *)
Definition clear_reconnectTimer (st : State) : State :=
  match reconnectTimer st with
  | Some (S _ as h) => set_reconnectTimer None (clearTimeout h st)
  | _ => st
  end.

(** [connect(user)]: an exception of the constructor leaves [connect] before
    [socket] is assigned. *)
Definition connect (user : UserInfo) : Eff unit :=
  modify (set_userInfo (Some user)) ;;
  modify (clientLog info "Connecting to WebSocket server") ;;
  modify clear_reconnectTimer ;;
  wsUrl <- gets (fun st => getWebSocketUrl env (customServerUrl st)) ;;
  ref <- new_WebSocket env wsUrl ;;
  modify (set_socket (Some ref)).

(** [if (s && (s.readyState === OPEN || s.readyState === CONNECTING)) s.close()] *)
Definition close_if_live (s : option nat) (st : State) : State :=
  match s with
  | Some ref =>
      match ws_readyState ref st with
      | Some OPEN | Some CONNECTING => ws_close ref st
      | _ => st
      end
  | None => st
  end.

Definition disconnect (st : State) : State :=
  let st := close_if_live (socket st) st in
  let st := clear_reconnectTimer st in
  set_connected false (set_socket None st).

Definition joinInstance (instanceId : string) (activityId : option string)
           (userId username : string) (serverUrl : option string) : Eff bool :=
  modify disconnect ;;
  modify (set_customServerUrl (or_else serverUrl None)) ;;
  let newUserInfo := mkUserInfo userId username (Some instanceId) None in
  let newUserInfo :=
    match or_else activityId None with
    | Some a => mkUserInfo userId username (Some instanceId) (Some a)
    | None => newUserInfo
    end in
  connect newUserInfo ;;
  ret true.

Definition handlers_of (k : EventKind) (s : Subscribers) : list Handler :=
  match k with
  | message => onMessageHandlers s
  | userJoined => onUserJoinedHandlers s
  | userLeft => onUserLeftHandlers s
  | connect_ev => onConnectHandlers s
  | disconnect_ev => onDisconnectHandlers s
  | error_ev => onErrorHandlers s
  end.

Definition with_handlers (k : EventKind) (l : list Handler) (s : Subscribers) : Subscribers :=
  match k with
  | message =>
      mkSubscribers l (onUserJoinedHandlers s) (onUserLeftHandlers s)
                    (onConnectHandlers s) (onDisconnectHandlers s) (onErrorHandlers s)
  | userJoined =>
      mkSubscribers (onMessageHandlers s) l (onUserLeftHandlers s)
                    (onConnectHandlers s) (onDisconnectHandlers s) (onErrorHandlers s)
  | userLeft =>
      mkSubscribers (onMessageHandlers s) (onUserJoinedHandlers s) l
                    (onConnectHandlers s) (onDisconnectHandlers s) (onErrorHandlers s)
  | connect_ev =>
      mkSubscribers (onMessageHandlers s) (onUserJoinedHandlers s) (onUserLeftHandlers s)
                    l (onDisconnectHandlers s) (onErrorHandlers s)
  | disconnect_ev =>
      mkSubscribers (onMessageHandlers s) (onUserJoinedHandlers s) (onUserLeftHandlers s)
                    (onConnectHandlers s) l (onErrorHandlers s)
  | error_ev =>
      mkSubscribers (onMessageHandlers s) (onUserJoinedHandlers s) (onUserLeftHandlers s)
                    (onConnectHandlers s) (onDisconnectHandlers s) l
  end.

(** [on(event, callback)]: [push] onto the list of that event. *)
Definition on (k : EventKind) (callback : Handler) (st : State) : State :=
  set_subscribers
    (with_handlers k (handlers_of k (subscribers st) ++ [callback]) (subscribers st)) st.

(** [off(event, callback)]: [filter(handler => handler !== callback)]. *)
Definition off (k : EventKind) (callback : Handler) (st : State) : State :=
  set_subscribers
    (with_handlers k
       (filter (fun h => negb (Nat.eqb h callback)) (handlers_of k (subscribers st)))
       (subscribers st)) st.

(** *** Callbacks *)

(** One subscriber call: it is recorded, then it returns or raises. *)
Definition invoke (h : Handler) (args : list JSValue) : Eff unit :=
  modify (fun st => set_calls (calls st ++ [(h, args)]) st) ;;
  if raises env h args then throw (HandlerError h) else ret tt.

(** [handlers.forEach(handler => handler(args))]: no handler is called after
    one has raised, the exception leaves [forEach]. *)
Fixpoint forEach (hs : list Handler) (args : list JSValue) : Eff unit :=
  match hs with
  | [] => ret tt
  | h :: rest => invoke h args ;; forEach rest args
  end.

Definition publish (k : EventKind) (args : list JSValue) : Eff unit :=
  hs <- gets (fun st => handlers_of k (subscribers st)) ;;
  forEach hs args.

Definition onopen : Eff unit :=
  modify (clientLog info "WebSocket connected") ;;
  modify (set_connected true) ;;
  u <- gets userInfo ;;
  match u with
  | Some u =>
      modify (clientLog info "Sending join message") ;;
      modify (fun st => snd (send "join" (userInfo_fields u) st))
  | None => ret tt
  end ;;
  publish connect_ev [].

(** [data.type] where [data] is a [JSON.parse] result: reading a property
    of [null] raises a TypeError. *)
Definition read_type (data : JSValue) : Eff JSValue :=
  match data with
  | JNull | JUndefined => throw TypeError
  | _ => ret (Js.get data "type")
  end.

Definition is_type (ty : JSValue) (s : string) : bool :=
  match ty with
  | JStr t => String.eqb t s
  | _ => false
  end.

Definition onmessage (rawData : string) : Eff unit :=
  try_catch
    (modify (clientLog info "Message received") ;;
     data <- match JSON_parse env rawData with
             | Some v => ret v
             | None => throw SyntaxError
             end ;;
     ty <- read_type data ;;
     if is_type ty "message" then
       publish message [Js.get data "userId"; Js.get data "message"]
     else if is_type ty "user_joined" then
       publish userJoined [Js.get data "userId"]
     else if is_type ty "user_left" then
       publish userLeft [Js.get data "userId"]
     else if is_type ty "error" then
       modify (clientLog error "Error from server") ;;
       publish error_ev [Js.get data "message"]
     else ret tt)
    (fun _ => modify (clientLog error "Error processing message")).

Definition reconnect_delay : Z := 5000.

Definition onclose : Eff unit :=
  modify (clientLog info "WebSocket disconnected") ;;
  modify (set_connected false) ;;
  modify (set_socket None) ;;
  publish disconnect_ev [] ;;
  u <- gets userInfo ;;
  match u with
  | Some _ =>
      modify (clientLog info "Scheduling reconnect attempt in 5 seconds") ;;
      modify (fun st => let '(h, st) := setTimeout reconnect_delay st in
                        set_reconnectTimer (Some h) st)
  | None => ret tt
  end.

Definition onerror : Eff unit :=
  wsUrl <- gets (fun st => getWebSocketUrl env (customServerUrl st)) ;;
  modify (clientLog error "WebSocket connection failed") ;;
  modify (clientLog error "WebSocket error object") ;;
  let errorMessage := "Connection error" in
  let errorMessage :=
    if includes wsUrl "discordsays.com"
    then errorMessage ++ ". Discord host may be blocking WebSocket connections."
    else errorMessage in
  let errorMessage :=
    errorMessage ++ " Try refreshing the page or checking your network connection." in
  publish error_ev [JStr errorMessage].

(** The closure given to [setTimeout] by [onclose]. *)
Definition reconnect_tick : Eff unit :=
  modify (clientLog info "Attempting to reconnect") ;;
  u <- gets userInfo ;;
  match u with
  | Some u => connect u
  | None => ret tt
  end.

(** *** The event loop *)

Inductive Event :=
| Call_connect (user : UserInfo)
| Call_disconnect
| Call_joinInstance (instanceId : string) (activityId : option string)
                    (userId username : string) (serverUrl : option string)
| Call_on (k : EventKind) (h : Handler)
| Call_off (k : EventKind) (h : Handler)
| Call_send (type : string) (data : list (string * JSValue))
| Socket_open (ref : nat)
| Socket_message (ref : nat) (rawData : string)
| Socket_error (ref : nat)
| Socket_close (ref : nat)
| Timer_fire (h : nat)
| Tick (dt : Z).

(** A task runs to completion; what it did before an uncaught exception
    stays done. *)
Definition deliver {A} (c : Eff A) (st : State) : State := snd (c st).

Definition set_readyState (ref : nat) (r : ReadyState) (st : State) : State :=
  set_sockets (update_socket ref (with_readyState r) (sockets st)) st.

(** One task of the event loop: a call from the application, a socket event
    the browser may deliver in the socket's present state, a timeout that is
    due, or the passing of [dt] milliseconds. [None]: the task cannot occur
    in this state. *)
Definition step (e : Event) (st : State) : option State :=
  match e with
  | Call_connect user => Some (deliver (connect user) st)
  | Call_disconnect => Some (disconnect st)
  | Call_joinInstance i a u n s => Some (deliver (joinInstance i a u n s) st)
  | Call_on k h => Some (on k h st)
  | Call_off k h => Some (off k h st)
  | Call_send ty data => Some (snd (send ty data st))
  | Socket_open ref =>
      match ws_readyState ref st with
      | Some CONNECTING => Some (deliver onopen (set_readyState ref OPEN st))
      | _ => None
      end
  | Socket_message ref rawData =>
      match ws_readyState ref st with
      | Some OPEN => Some (deliver (onmessage rawData) st)
      | _ => None
      end
  | Socket_error ref =>
      match ws_readyState ref st with
      | Some CONNECTING | Some OPEN | Some CLOSING => Some (deliver onerror st)
      | _ => None
      end
  | Socket_close ref =>
      match ws_readyState ref st with
      | Some CONNECTING | Some OPEN | Some CLOSING =>
          Some (deliver onclose (set_readyState ref CLOSED st))
      | _ => None
      end
  | Timer_fire h =>
      match find (fun t => Nat.eqb (handle t) h) (timers st) with
      | Some t =>
          if (due t <=? now st)%Z
          then Some (deliver reconnect_tick (clearTimeout h st))
          else None
      | None => None
      end
  | Tick dt =>
      if (0 <=? dt)%Z then Some (set_now (now st + dt)%Z st) else None
  end.

Fixpoint run (es : list Event) (st : State) : option State :=
  match es with
  | [] => Some st
  | e :: rest =>
      match step e st with
      | Some st' => run rest st'
      | None => None
      end
  end.

(** *** Observations *)

Definition is_live (r : ReadyState) : bool :=
  match r with
  | CONNECTING | OPEN => true
  | CLOSING | CLOSED => false
  end.

Definition is_live_ref (st : State) (ref : nat) : bool :=
  match ws_readyState ref st with
  | Some r => is_live r
  | None => false
  end.

(** The channels that are connecting or open. *)
Definition live_refs (st : State) : list nat :=
  filter (is_live_ref st) (seq 0 (length (sockets st))).

End Manager.

(** *** Vocabulary of the properties *)

(** The channel scheme a URL starts with. *)
Definition channel_scheme (u : string) : string :=
  if startsWith u "wss://" then "wss:"
  else if startsWith u "ws://" then "ws:"
  else "".

(** The channel scheme that corresponds to the page's own protocol. *)
Definition page_scheme (env : Env) : string :=
  if String.eqb (protocol (location env)) "https:" then "wss:" else "ws:".

(** The channel scheme an override declares. *)
Definition override_scheme (custom : string) : string :=
  if startsWith custom "https" then "wss:" else "ws:".

(** The subscribers a dispatch reaches: those before the first one that
    raises, and that one. *)
Fixpoint invoked (env : Env) (hs : list Handler) (args : list JSValue) : list Handler :=
  match hs with
  | [] => []
  | h :: rest => h :: (if raises env h args then [] else invoked env rest args)
  end.

Definition first_raise (env : Env) (hs : list Handler) (args : list JSValue)
  : option Handler :=
  find (fun h => raises env h args) hs.

Definition completion_of (r : option Handler) : Completion unit :=
  match r with
  | Some h => Thrown (HandlerError h)
  | None => Normal tt
  end.

Definition record_calls (hs : list Handler) (args : list JSValue) (st : State) : State :=
  set_calls (calls st ++ map (fun h => (h, args)) hs) st.

(** The dispatch an inbound frame leads to: the event kind and the
    arguments handed to its subscribers. *)
Definition inbound (data : JSValue) : option (EventKind * list JSValue) :=
  let ty := Js.get data "type" in
  if is_type ty "message" then
    Some (message, [Js.get data "userId"; Js.get data "message"])
  else if is_type ty "user_joined" then Some (userJoined, [Js.get data "userId"])
  else if is_type ty "user_left" then Some (userLeft, [Js.get data "userId"])
  else if is_type ty "error" then Some (error_ev, [Js.get data "message"])
  else None.

Definition is_error_kind (k : EventKind) : bool :=
  match k with error_ev => true | _ => false end.

(** Every live channel is the one held in [socket]; a held reference is a
    socket that exists; a pending timeout is alone, is the one held in
    [reconnectTimer], and is pending only while no channel is held. *)
Record tracked (st : State) : Prop := mkTracked {
  tracked_live : forall ref, is_live_ref st ref = true -> socket st = Some ref;
  tracked_held : forall ref, socket st = Some ref -> ws_readyState ref st <> None;
  tracked_timer :
    timers st = []
    \/ exists t, timers st = [t]
                 /\ reconnectTimer st = Some (handle t)
                 /\ handle t <> 0
                 /\ socket st = None
}.

(** Two states that agree on what [tracked] reads. *)
Definition same_core (st st' : State) : Prop :=
  socket st' = socket st
  /\ timers st' = timers st
  /\ reconnectTimer st' = reconnectTimer st
  /\ userInfo st' = userInfo st
  /\ customServerUrl st' = customServerUrl st
  /\ forall r, ws_readyState r st' = ws_readyState r st.

(** The tasks under which the manager keeps track of its channel: [connect]
    is called only while no channel is live, and a close event is delivered
    only for the channel the manager holds. *)
Definition admitted (e : Event) (st : State) : Prop :=
  match e with
  | Call_connect _ => live_refs st = []
  | Socket_close ref => socket st = Some ref
  | _ => True
  end.

(** The states of such executions. *)
Inductive reachable (env : Env) : State -> Prop :=
| reachable_init : reachable env init
| reachable_step (e : Event) (st st' : State) :
    reachable env st -> admitted e st -> step env e st = Some st' ->
    reachable env st'.

(** Executions given as a list of tasks. *)
Fixpoint admitted_run (env : Env) (es : list Event) (st : State) : Prop :=
  match es with
  | [] => True
  | e :: rest =>
      admitted e st
      /\ match step env e st with
         | Some st1 => admitted_run env rest st1
         | None => True
         end
  end.

Definition timer_event (e : Event) : Prop :=
  match e with
  | Tick _ | Timer_fire _ => True
  | _ => False
  end.

(** The constructor returns a socket for this address. *)
Definition accepts (env : Env) (u : string) : bool :=
  match WebSocket_throws env u with
  | None => true
  | Some _ => false
  end.

(** The identity [joinInstance] builds: [activityId] is kept when it is a
    non-empty string. *)
Definition identity_of (instanceId : string) (activityId : option string)
           (userId username : string) : UserInfo :=
  mkUserInfo userId username (Some instanceId) (or_else activityId None).

(** The held channel is open. *)
Definition held_open (st : State) : bool :=
  match socket st with
  | Some ref =>
      match ws_readyState ref st with
      | Some OPEN => true
      | _ => false
      end
  | None => false
  end.

(** The address and the state of a socket. *)
Definition ws_view (ref : nat) (st : State) : option (string * ReadyState) :=
  option_map (fun w => (url w, readyState w)) (nth_error (sockets st) ref).

Definition ws_outbox (ref : nat) (st : State) : option (list JSValue) :=
  option_map outbox (nth_error (sockets st) ref).

(** Two states with the same module variables, timeouts and sockets, up to
    what was sent, logged and dispatched. *)
Definition same_channels (st st' : State) : Prop :=
  socket st' = socket st
  /\ connected st' = connected st
  /\ userInfo st' = userInfo st
  /\ reconnectTimer st' = reconnectTimer st
  /\ customServerUrl st' = customServerUrl st
  /\ subscribers st' = subscribers st
  /\ timers st' = timers st
  /\ forall r, ws_view r st' = ws_view r st.

(** Two states that hold the same socket, have the same override, and
    whose sockets have the same addresses. *)
Definition same_addresses (st st' : State) : Prop :=
  socket st' = socket st
  /\ customServerUrl st' = customServerUrl st
  /\ forall r, option_map fst (ws_view r st') = option_map fst (ws_view r st).

(** The held channel, when there is one, exists and is addressed at the URL
    [getWebSocketUrl] gives now. *)
Definition held_at_current_url (env : Env) (st : State) : Prop :=
  forall ref, socket st = Some ref ->
    exists r, ws_view ref st = Some (getWebSocketUrl env (customServerUrl st), r).

(** The text [onerror] hands to the error subscribers. *)
Definition error_text (wsUrl : string) : string :=
  "Connection error"
    ++ (if includes wsUrl "discordsays.com"
        then ". Discord host may be blocking WebSocket connections." else "")
    ++ " Try refreshing the page or checking your network connection.".

(** What [onmessage] makes of a frame: a dispatch, nothing (a type no case
    of the switch handles), or an exception caught by its catch. *)
Inductive FrameClass :=
| Dispatched (k : EventKind) (args : list JSValue)
| Ignored
| Malformed.

Definition classify (env : Env) (rawData : string) : FrameClass :=
  match JSON_parse env rawData with
  | None => Malformed
  | Some JNull | Some JUndefined => Malformed
  | Some data =>
      match inbound data with
      | Some (k, args) => Dispatched k args
      | None => Ignored
      end
  end.

(** *** Pages and sessions of the examples *)

Definition local_env : Env :=
  mkEnv (mkLocation "http:" "localhost:5173") None (fun _ => None) (fun _ _ => false)
        (fun _ => None).

Definition secure_page : Env :=
  mkEnv (mkLocation "https:" "app.example.com") None (fun _ => None) (fun _ _ => false)
        (fun _ => None).

Definition alice : UserInfo := mkUserInfo "u1" "Alice" (Some "inst-1") None.

Definition chat_frame : JSValue :=
  JObj [("type", JStr "message"); ("userId", JStr "u2"); ("message", JStr "hi")].

Definition quoted (s : string) : string :=
  String (Ascii.ascii_of_nat 34) s ++ String (Ascii.ascii_of_nat 34) "".

(** The text of [chat_frame] on the wire. *)
Definition chat_frame_text : string :=
  "{" ++ quoted "type" ++ ":" ++ quoted "message" ++ ","
      ++ quoted "userId" ++ ":" ++ quoted "u2" ++ ","
      ++ quoted "message" ++ ":" ++ quoted "hi" ++ "}".

(** A page whose subscriber 1 raises on every call, and whose parser knows
    the chat frame. *)
Definition faulty_env : Env :=
  mkEnv (mkLocation "http:" "localhost:5173") None
        (fun s => if String.eqb s chat_frame_text then Some chat_frame else None)
        (fun h _ => Nat.eqb h 1)
        (fun _ => None).

(** A page whose browser rejects an address with a space in it. *)
Definition strict_env : Env :=
  mkEnv (mkLocation "http:" "localhost:5173") None (fun _ => None) (fun _ _ => false)
        (fun u => if includes u " " then Some SyntaxError else None).

(** A session: join, open, the channel drops, the reconnection fires and
    opens, then a second join on another server. *)
Definition session : list Event :=
  [Call_joinInstance "inst-1" None "u1" "Alice" None;
   Socket_open 0;
   Socket_close 0;
   Tick 5000;
   Timer_fire 1;
   Socket_open 1;
   Call_joinInstance "inst-2" (Some "act-9") "u1" "Alice" (Some "custom.example.com")].

Definition after_session : State :=
  match run local_env session init with
  | Some st => st
  | None => init
  end.

(** A connected manager: one channel, open and held. *)
Definition connected_state : State :=
  match run local_env [Call_connect alice; Socket_open 0] init with
  | Some st => st
  | None => init
  end.

(** Projections of a state built by the setters. *)
Ltac proj :=
  cbn [socket connected userInfo reconnectTimer customServerUrl subscribers
       sockets timers timer_count now console calls
       set_socket set_connected set_userInfo set_reconnectTimer
       set_customServerUrl set_subscribers set_sockets set_timers set_now
       set_console set_calls clientLog fst snd].

End WebSocketClient.

(** ** Participant reconciliation of the activity client

    [logDebug] and [renderParticipants] come from another module: their
    calls are recorded, and they are taken not to raise. *)

Module Presence.

(** The module variable [participants], and what the two functions hand to
    their collaborators: the arguments of [renderParticipants] and the lines
    given to [logDebug] (message, level when one is passed). *)
Record State := mkState {
  participants : JSValue;
  rendered : list JSValue;
  debug_log : list (string * option string)
}.

Definition init : State := mkState (JArr []) [] [].

Definition set_participants (v : JSValue) (st : State) : State :=
  mkState v (rendered st) (debug_log st).

Definition renderParticipants (v : JSValue) (st : State) : State :=
  mkState (participants st) (rendered st ++ [v]) (debug_log st).

Definition logDebug (msg : string) (level : option string) (st : State) : State :=
  mkState (participants st) (rendered st) (debug_log st ++ [(msg, level)]).

(** [discordSdk.commands.getInstanceConnectedParticipants()] settles with a
    response or rejects with an [Error]. *)
Inductive SdkReply :=
| Resolved (response : JSValue)
| Rejected (message stack : string).

(** [v.length] *)
Definition length_of (v : JSValue) : JSValue :=
  match v with
  | JArr l => JNum (Z.of_nat (List.length l))
  | JStr s => JNum (Z.of_nat (String.length s))
  | _ => Js.get v "length"
  end.

Section Reconcile.

(** [JSON.stringify] and the string conversion of template literals. *)
Variable JSON_stringify : JSValue -> string.
Variable to_string : JSValue -> string.

Definition fetchParticipants (reply : SdkReply) (st : State) : State :=
  match reply with
  | Resolved response =>
      let st := logDebug ("Participants response structure: "
                            ++ JSON_stringify response) None st in
      let st :=
        if Js.isArray response then set_participants response st
        else if Js.truthy response && Js.typeof_object response then
          if Js.truthy (Js.get response "users") then
            set_participants (Js.get response "users") st
          else if Js.truthy (Js.get response "participants") then
            set_participants (Js.get response "participants") st
          else
            let keys := Js.keys response in
            let st := logDebug ("Available keys in response: "
                                  ++ JsString.join ", " keys) (Some "warning") st in
            set_participants (JArr []) st
        else
          let st := logDebug "Unable to parse participants response" (Some "error") st in
          set_participants (JArr []) st in
      let st := logDebug ("Fetched " ++ to_string (length_of (participants st))
                            ++ " participants") None st in
      renderParticipants (participants st) st
  | Rejected message stack =>
      let st := logDebug ("Failed to fetch participants: " ++ message) (Some "error") st in
      let st := logDebug ("Error stack: " ++ stack) (Some "error") st in
      let st := set_participants (JArr []) st in
      renderParticipants (participants st) st
  end.

Definition updateParticipants (newParticipants : JSValue) (st : State) : State :=
  let st := logDebug ("Participants update received: "
                        ++ JSON_stringify newParticipants) None st in
  let finish (st : State) : State :=
    let st := logDebug ("Participants updated: "
                          ++ to_string (length_of (participants st))
                          ++ " users in activity") None st in
    renderParticipants (participants st) st in
  if Js.isArray newParticipants then
    finish (set_participants newParticipants st)
  else if Js.truthy newParticipants && Js.typeof_object newParticipants then
    if Js.truthy (Js.get newParticipants "users") then
      finish (set_participants (Js.get newParticipants "users") st)
    else if Js.truthy (Js.get newParticipants "participants") then
      finish (set_participants (Js.get newParticipants "participants") st)
    else
      let keys := Js.keys newParticipants in
      logDebug ("Available keys in update: " ++ JsString.join ", " keys)
               (Some "warning") st
  else
    logDebug "Unable to parse participants update" (Some "error") st.

End Reconcile.

(** *** Vocabulary of the properties *)

(** A payload one of the probes accepts. *)
Definition recognized (v : JSValue) : bool :=
  Js.isArray v
  || (Js.truthy v && Js.typeof_object v
      && (Js.truthy (Js.get v "users") || Js.truthy (Js.get v "participants"))).

(** The value the probes take out of a recognized payload. *)
Definition extracted (v : JSValue) : JSValue :=
  if Js.isArray v then v
  else if Js.truthy (Js.get v "users") then Js.get v "users"
  else Js.get v "participants".

(** The calls that write [participants]. *)
Inductive Op :=
| Fetch (reply : SdkReply)
| Update (newParticipants : JSValue).

Definition apply_op (JSON_stringify to_string : JSValue -> string)
           (o : Op) (st : State) : State :=
  match o with
  | Fetch reply => fetchParticipants JSON_stringify to_string reply st
  | Update v => updateParticipants JSON_stringify to_string v st
  end.

Definition apply_ops (JSON_stringify to_string : JSValue -> string)
           (ops : list Op) (st : State) : State :=
  fold_left (fun st o => apply_op JSON_stringify to_string o st) ops st.

(** The participants of the examples. *)
Definition ab : JSValue := JArr [JStr "a"; JStr "b"].

End Presence.

(** ** The Ably relay health probe *)

Module Relay.

(** The substitute for the Ably client, as data: the [connection] part of
    the object literal. Its methods are the [mock_] functions below. *)
Record MockAbly := mkMockAbly {
  connection_state : string;
  connection_id : string
}.

Definition mockAbly : MockAbly := mkMockAbly "connected" "mock-connection".

(** [connectionAttempts], [window.__mockAblyFallback], the pending timeout
    of the probe (the time it is due) and the clock; then what an observer
    records: the [logDebug] lines, the clock at every run of
    [checkConnectionState], and the number of assignments to
    [window.__mockAblyFallback]. *)
Record State := mkState {
  connectionAttempts : nat;
  mockAblyFallback : option MockAbly;
  timer : option Z;
  now : Z;
  debug_log : list (string * string);
  checked_at : list Z;
  installs : nat
}.

Definition logDebug (msg level : string) (st : State) : State :=
  mkState (connectionAttempts st) (mockAblyFallback st) (timer st) (now st)
          (debug_log st ++ [(msg, level)]) (checked_at st) (installs st).

Definition setTimeout (delay : Z) (st : State) : State :=
  mkState (connectionAttempts st) (mockAblyFallback st) (Some (now st + delay)%Z)
          (now st) (debug_log st) (checked_at st) (installs st).

Definition nat_text (n : nat) : string :=
  DecimalString.NilEmpty.string_of_uint (Nat.to_uint n).

(** [checkConnectionState], given the value [ably.connection.state] has when
    it runs. *)
Definition checkConnectionState (state : string) (st : State) : State :=
  let st := mkState (S (connectionAttempts st)) (mockAblyFallback st) (timer st)
                    (now st) (debug_log st) (checked_at st ++ [now st]) (installs st) in
  if String.eqb state "connected" then
    logDebug "Ably connection verified as connected" "info" st
  else if (3 <? connectionAttempts st)%nat then
    let st := logDebug ("Ably still not connected after "
                          ++ nat_text (connectionAttempts st)
                          ++ " checks, state: " ++ state) "warning" st in
    let st := logDebug "Applying emergency fallback for Ably connectivity issues"
                       "warning" st in
    let st := mkState (connectionAttempts st) (Some mockAbly) (timer st) (now st)
                      (debug_log st) (checked_at st) (S (installs st)) in
    logDebug "Fallback mock Ably instance activated due to connection issues"
             "warning" st
  else
    setTimeout 5000 st.

(** After [getAblyInstance()]: the counter is 0 and the first check is
    scheduled. *)
Definition start (t0 : Z) : State :=
  setTimeout 5000 (mkState 0 None None t0 [] [] 0).

(** [mockAbly.channels.get(channelName).subscribe(eventName, callback)] *)
Definition mock_subscribe (channelName eventName : string) (st : State) : bool * State :=
  (true, logDebug ("Mock subscription to " ++ eventName ++ " on " ++ channelName)
                  "info" st).

(** [mockAbly.channels.get(channelName).publish(eventName, data)] *)
Definition mock_publish (channelName eventName : string) (data : JSValue)
           (st : State) : bool * State :=
  (true, logDebug ("Mock publish to " ++ eventName ++ " on " ++ channelName)
                  "info" st).

(** [mockAbly.close()] *)
Definition mock_close (st : State) : State := st.

Inductive Event :=
| Tick (dt : Z)
| Check_fire (state : string).

(** One task of the event loop: time passes, or the pending timeout is due
    and runs [checkConnectionState]. *)
Definition step (e : Event) (st : State) : option State :=
  match e with
  | Tick dt =>
      if (0 <=? dt)%Z
      then Some (mkState (connectionAttempts st) (mockAblyFallback st) (timer st)
                         (now st + dt)%Z (debug_log st) (checked_at st) (installs st))
      else None
  | Check_fire state =>
      match timer st with
      | Some d =>
          if (d <=? now st)%Z
          then Some (checkConnectionState state
                       (mkState (connectionAttempts st) (mockAblyFallback st) None
                                (now st) (debug_log st) (checked_at st) (installs st)))
          else None
      | None => None
      end
  end.

(** The probe left alone: every pending check runs exactly when it is due,
    and reads the next entry of [observed]. *)
Fixpoint run_probe (observed : list string) (st : State) : State :=
  match observed with
  | [] => st
  | o :: rest =>
      match timer st with
      | Some d =>
          match step (Tick (d - now st)) st with
          | Some st1 =>
              match step (Check_fire o) st1 with
              | Some st2 => run_probe rest st2
              | None => st
              end
          | None => st
          end
      | None => st
      end
  end.

(** *** Vocabulary of the properties *)

Definition not_connected (state : string) : bool := negb (String.eqb state "connected").

Definition is_connected (state : string) : bool := String.eqb state "connected".

Definition is_installed (st : State) : bool :=
  match mockAblyFallback st with
  | Some _ => true
  | None => false
  end.

Definition is_pending (st : State) : bool :=
  match timer st with
  | Some _ => true
  | None => false
  end.

(** The time of the i-th check of a probe started at [t0]. *)
Definition check_time (t0 : Z) (i : nat) : Z := (t0 + 5000 * Z.of_nat i)%Z.

(** The probe between two checks: [k] checks done, none saw "connected",
    the next one is pending. *)
Record probing (t0 : Z) (k : nat) (st : State) : Prop := mkProbing {
  probing_count : connectionAttempts st = k;
  probing_mock : mockAblyFallback st = None;
  probing_timer : timer st = Some (check_time t0 (S k));
  probing_now : (now st <= check_time t0 (S k))%Z;
  probing_checked : checked_at st = map (check_time t0) (seq 1 k);
  probing_installs : installs st = 0
}.

(** Any schedule of the event loop. *)
Fixpoint run_events (es : list Event) (st : State) : option State :=
  match es with
  | [] => Some st
  | e :: rest =>
      match step e st with
      | Some st' => run_events rest st'
      | None => None
      end
  end.

(** Times that start at least 5000 ms after [from] and are at least 5000 ms
    apart. *)
Fixpoint spaced (from : Z) (times : list Z) : Prop :=
  match times with
  | [] => True
  | t :: rest => (from + 5000 <= t)%Z /\ spaced t rest
  end.

(** The probe under any schedule, started at [t0]: one record per check,
    the checks spaced and in the past; a pending check is due 5000 ms
    after the last one and only while fewer than four have run and nothing
    is installed; the substitute is installed by the fourth check only. *)
Record scheduled (t0 : Z) (st : State) : Prop := mkScheduled {
  scheduled_count : length (checked_at st) = connectionAttempts st;
  scheduled_bound : connectionAttempts st <= 4;
  scheduled_spaced : spaced t0 (checked_at st);
  scheduled_past : (last (checked_at st) t0 <= now st)%Z;
  scheduled_pending :
    forall d, timer st = Some d ->
      d = (last (checked_at st) t0 + 5000)%Z
      /\ connectionAttempts st <= 3
      /\ mockAblyFallback st = None;
  scheduled_installs : installs st = if is_installed st then 1 else 0;
  scheduled_installed :
    is_installed st = true -> connectionAttempts st = 4 /\ timer st = None
}.

End Relay.

(** ** utils: session storage and the local user id

    [sessionStorage] is a map from keys to strings. [JSON.stringify] and
    [JSON.parse] are the platform's; [setItem] may refuse a write (quota,
    storage disabled), which the code catches. *)

Module Utils.

Definition Storage := string -> option string.

Definition no_items : Storage := fun _ => None.

Definition getItem (key : string) (s : Storage) : option string := s key.

Definition setItem (key value : string) (s : Storage) : Storage :=
  fun k => if String.eqb k key then Some value else s k.

Record Platform := mkPlatform {
  JSON_stringify : JSValue -> option string;   (* None: the result [undefined] *)
  JSON_parse : string -> option JSValue;       (* None: SyntaxError *)
  refuses : string -> string -> bool;          (* [setItem(key, text)] raises *)
  denied : bool                                (* reading [sessionStorage] raises *)
}.

(** The storage and the lines given to [console.error]. *)
Record State := mkState {
  storage : Storage;
  errors : list string
}.

Section Session.

Variable platform : Platform.

(** [Math.random().toString(36).substring(2, 10)], given the text of the
    random number in base 36. *)
Definition generateUserId (random36 : string) : string :=
  String.substring 2 8 random36.

Definition setSessionItem (key : string) (value : JSValue) (st : State) : State :=
  let text := match JSON_stringify platform value with
              | Some t => t
              | None => "undefined"
              end in
  if denied platform || refuses platform key text
  then mkState (storage st) (errors st ++ ["Error setting session item:"])
  else mkState (setItem key text (storage st)) (errors st).

(** [item ? JSON.parse(item) : defaultValue], with the catch. *)
Definition getSessionItem (key : string) (defaultValue : JSValue) (st : State)
  : JSValue * State :=
  let failed :=
    (defaultValue,
     mkState (storage st) (errors st ++ ["Error getting session item:"])) in
  if denied platform then failed
  else
    match getItem key (storage st) with
    | Some item =>
        if JsString.truthy item then
          match JSON_parse platform item with
          | Some v => (v, st)
          | None => failed
          end
        else (defaultValue, st)
    | None => (defaultValue, st)
    end.

Definition getOrCreateLocalUserId (random36 : string) (st : State) : JSValue * State :=
  let '(userId, st) := getSessionItem "local_user_id" JNull st in
  if negb (Js.truthy userId) then
    let userId := JStr (generateUserId random36) in
    (userId, setSessionItem "local_user_id" userId st)
  else (userId, st).

End Session.

(** A platform for the examples: a string is written with a leading quote
    mark, everything else as "null"; a refused key. *)
Definition toy_platform : Platform :=
  mkPlatform
    (fun v => match v with
              | JStr s => Some (String "'"%char s)
              | JUndefined => None
              | _ => Some "null"
              end)
    (fun t => match t with
              | String "'"%char s => Some (JStr s)
              | "null" => Some JNull
              | _ => None
              end)
    (fun key _ => String.eqb key "full")
    false.

End Utils.

(** * The chat page (main.ts) *)

Module App.

Record AppParams := mkAppParams {
  param_instanceId : string;
  param_activityId : option string;
  guildId : option string;
  channelId : option string
}.

(** The calls made to the [ui] module. *)
Inductive UiCall :=
| updateStatus (status text : string)
| displaySystemMessage (text : string)
| displayMessage (sender text : string) (own : bool)
| clearInput.

(** The module variables [userId], [username] and [params], the connection
    manager, and the calls made to [ui]. *)
Record State := mkState {
  userId : option string;
  username : option string;
  params : option AppParams;
  manager : WebSocketClient.State;
  ui : list UiCall
}.

Definition show (c : UiCall) (app : State) : State :=
  mkState (userId app) (username app) (params app) (manager app) (ui app ++ [c]).

Definition with_manager (m : WebSocketClient.State) (app : State) : State :=
  mkState (userId app) (username app) (params app) m (ui app).

(** The commands [handleMessageSubmit] hands over to: [testConnection],
    [displayConnectionInfo] and [showJoinInstanceModal]. *)
Inductive Command := TestConnection | ConnectionInfo | JoinModal.

(** A submission either passes control to a command or is handled as a chat
    message. *)
Inductive Outcome :=
| Runs (c : Command)
| Done (app : State).

Section Page.

Variable env : WebSocketClient.Env.

(** The object literal [connectWebSocket] gives to [connect], when
    [userId && username && params] holds. *)
Definition identity (app : State) : option WebSocketClient.UserInfo :=
  match JsString.or_else (userId app) None,
        JsString.or_else (username app) None,
        params app with
  | Some u, Some n, Some p =>
      Some (WebSocketClient.mkUserInfo u n (Some (param_instanceId p))
              (JsString.or_else (param_activityId p) None))
  | _, _, _ => None
  end.

(** [connect] is the last statement here and in the branch of
    [handleMessageSubmit] that calls this function: an exception of the
    constructor escapes to the event loop with nothing left to run, so the
    state after the call is the state reached either way. *)
Definition connectWebSocket (app : State) : State :=
  let app := show (updateStatus "connecting" "Connecting to server...") app in
  match identity app with
  | Some user =>
      with_manager (WebSocketClient.deliver (WebSocketClient.connect env user)
                      (manager app)) app
  | None => app
  end.

Definition handleMessageSubmit (message : string) (app : State) : Outcome :=
  if String.eqb message "__DEBUG_TEST_CONNECTION__" then Runs TestConnection
  else if String.eqb message "__INFO_COMMAND__" then Runs ConnectionInfo
  else if String.eqb message "__JOIN_COMMAND__" then Runs JoinModal
  else if WebSocketClient.isConnected (manager app) then
    let app :=
      with_manager (snd (WebSocketClient.sendMessage message (manager app))) app in
    let app := match JsString.or_else (userId app) None with
               | Some u => show (displayMessage u message true) app
               | None => app
               end in
    Done (show clearInput app)
  else
    let app :=
      show (displaySystemMessage "Cannot send message: Not connected to server") app in
    let app := show (updateStatus "disconnected" "Not connected") app in
    Done (match params app with
          | Some _ => connectWebSocket app
          | None => app
          end).

End Page.

(** *** Pages of the examples *)

Definition local_params : AppParams := mkAppParams "inst-1" None None None.

(** A page whose first channel is still connecting. *)
Definition connecting_page : State :=
  mkState (Some "u1") (Some "User-u1") (Some local_params)
          (WebSocketClient.deliver
             (WebSocketClient.connect WebSocketClient.local_env WebSocketClient.alice)
             WebSocketClient.init)
          [].

(** The page after a message was submitted while connecting, and the first
    channel then opened. *)
Definition crossed_page : State :=
  match handleMessageSubmit WebSocketClient.local_env "hello" connecting_page with
  | Done app =>
      match WebSocketClient.step WebSocketClient.local_env
              (WebSocketClient.Socket_open 0) (manager app) with
      | Some m => with_manager m app
      | None => app
      end
  | Runs _ => connecting_page
  end.

End App.

(** * Properties *)

(** ** String facts *)

Module JsStringFacts.

Import JsString.

Lemma endsWith_cons (c : ascii) (s p : string) :
  endsWith (String c s) p
  = if String.eqb (String c s) p then true else endsWith s p.
Proof. reflexivity. Qed.

Lemma endsWith_refl (p : string) : endsWith p p = true.
Proof.
  destruct p as [|c p].
  - reflexivity.
  - now rewrite endsWith_cons, String.eqb_refl.
Qed.

Lemma endsWith_app_r (a b p : string) :
  endsWith b p = true -> endsWith (a ++ b) p = true.
Proof.
  intros Hb. induction a as [|c a IH].
  - exact Hb.
  - change (String c a ++ b) with (String c (a ++ b)).
    rewrite endsWith_cons, IH.
    now destruct (String.eqb (String c (a ++ b)) p).
Qed.

Lemma endsWith_app (a p : string) : endsWith (a ++ p) p = true.
Proof. apply endsWith_app_r, endsWith_refl. Qed.

(** Completing a trailing slash: ["x/" ++ "ws"] ends with ["/ws"]. *)
Lemma endsWith_slash_ws (s : string) :
  endsWith s "/" = true -> endsWith (s ++ "ws") "/ws" = true.
Proof.
  induction s as [|c s IH].
  - discriminate.
  - rewrite endsWith_cons.
    change (String c s ++ "ws") with (String c (s ++ "ws")).
    rewrite endsWith_cons.
    destruct (String.eqb (String c s) "/") eqn:E.
    + apply String.eqb_eq in E. injection E as -> ->. reflexivity.
    + intros H. rewrite (IH H).
      now destruct (String.eqb (String c (s ++ "ws")) "/ws").
Qed.

Lemma append_empty_r (s : string) : s ++ "" = s.
Proof. induction s as [|c s IH]; simpl; [reflexivity | now rewrite IH]. Qed.

(** The two tests against their meaning. *)
Lemma startsWith_iff (s p : string) :
  startsWith s p = true <-> exists q, s = p ++ q.
Proof.
  revert s. induction p as [|a p IH]; intros s; cbn [startsWith].
  - split; [intros _; now exists s | reflexivity].
  - destruct s as [|b s].
    + split; [discriminate | intros [q H]; discriminate].
    + rewrite Bool.andb_true_iff, Ascii.eqb_eq, IH. split.
      * intros [-> [q ->]]. now exists q.
      * intros [q H]. injection H as -> ->. split; [reflexivity | now exists q].
Qed.

Lemma endsWith_iff (s p : string) :
  endsWith s p = true <-> exists q, s = q ++ p.
Proof.
  split.
  - induction s as [|c s IH].
    + destruct p; [intros _; now exists "" | discriminate].
    + rewrite endsWith_cons.
      destruct (String.eqb_spec (String c s) p) as [<-|_].
      * intros _. now exists "".
      * intros H. destruct (IH H) as [q ->]. now exists (String c q).
  - intros [q ->]. apply endsWith_app.
Qed.

End JsStringFacts.

(** ** Address resolution *)

Module AddressSpec.

Import JsString JsStringFacts WebSocketClient.

Example url_local :
  getWebSocketUrl (mkEnv (mkLocation "http:" "localhost:5173") None
                         (fun _ => None) (fun _ _ => false) (fun _ => None)) None
  = "ws://localhost:5173/ws".
Proof. reflexivity. Qed.

Example url_vite_host :
  getWebSocketUrl (mkEnv (mkLocation "https:" "localhost:5173") (Some "dev.example.com")
                         (fun _ => None) (fun _ _ => false) (fun _ => None)) None
  = "wss://dev.example.com/ws".
Proof. reflexivity. Qed.

Example url_discord :
  getWebSocketUrl (mkEnv (mkLocation "https:" "1234.discordsays.com") None
                         (fun _ => None) (fun _ _ => false) (fun _ => None)) None
  = "wss://1234.discordsays.com/.proxy/ws".
Proof. reflexivity. Qed.

Example url_override_trailing_slash :
  getWebSocketUrl secure_page (Some "https://brebis.up.railway.app/")
  = "wss://brebis.up.railway.app/ws".
Proof. reflexivity. Qed.

Example url_override_bare_host :
  getWebSocketUrl secure_page (Some "custom.example.com")
  = "ws://custom.example.com/ws".
Proof. reflexivity. Qed.

(** C4, as stated, fails: on a secure page ("https:") with the override
    "http://backend.example.com" the resolver answers
    "ws://backend.example.com/ws", whose scheme is not the page's "wss:". *)
Lemma override_scheme_differs_from_page :
  protocol (location secure_page) = "https:"
  /\ getWebSocketUrl secure_page (Some "http://backend.example.com")
     = "ws://backend.example.com/ws"
  /\ channel_scheme (getWebSocketUrl secure_page (Some "http://backend.example.com"))
     <> page_scheme secure_page.
Proof. repeat split. discriminate. Qed.

(** C4, amended: the URL always ends in "/ws". Without an override (absent or
    empty) its scheme is the page's: "wss:" on an "https:" page, "ws:"
    otherwise. With an override the scheme is the override's own, "wss:" when
    the override starts with "https" and "ws:" otherwise, whatever the page's
    scheme is; the "http(s)://" prefix is removed and "/ws" is completed when
    the rest does not end with it. *)
Theorem getWebSocketUrl_scheme_and_suffix (env : Env) (customServerUrl : option string) :
  let u := getWebSocketUrl env customServerUrl in
  endsWith u "/ws" = true
  /\ match or_else customServerUrl None with
     | None => channel_scheme u = page_scheme env
     | Some custom =>
         let rest := strip_http_scheme custom in
         channel_scheme u = override_scheme custom
         /\ u = override_scheme custom ++ "//" ++ rest
                ++ (if endsWith rest "/ws" then ""
                    else if endsWith rest "/" then "ws" else "/ws")
     end.
Proof.
  assert (Hend : forall proto rest, endsWith rest "/ws" = true ->
                   endsWith (proto ++ "//" ++ rest) "/ws" = true).
  { intros proto rest H. apply endsWith_app_r.
    now apply (endsWith_app_r "//"). }
  unfold getWebSocketUrl, channel_scheme, page_scheme, override_scheme.
  destruct (or_else customServerUrl None) as [custom|]; cbv zeta.
  - destruct (endsWith (strip_http_scheme custom) "/ws") eqn:Hws; cbn [negb].
    + split; [now apply Hend|].
      rewrite append_empty_r.
      split; destruct (startsWith custom "https"); reflexivity.
    + destruct (endsWith (strip_http_scheme custom) "/") eqn:Hs.
      * split; [now apply Hend, endsWith_slash_ws|].
        split; destruct (startsWith custom "https"); reflexivity.
      * split; [apply Hend, endsWith_app|].
        split; destruct (startsWith custom "https"); reflexivity.
  - destruct (includes (host (location env)) "discordsays.com").
    + split.
      * apply Hend. now apply (endsWith_app_r _ ".discordsays.com/.proxy/ws").
      * destruct (String.eqb (protocol (location env)) "https:"); reflexivity.
    + split.
      * apply Hend, endsWith_app.
      * destruct (String.eqb (protocol (location env)) "https:"); reflexivity.
Qed.

End AddressSpec.

(** ** Participant reconciliation *)

Module PresenceSpec.

Import Presence.

Section Shapes.

Variable JSON_stringify : JSValue -> string.
Variable to_string : JSValue -> string.

Example fetch_bare_sequence :
  participants (fetchParticipants JSON_stringify to_string (Resolved ab) init) = ab.
Proof. reflexivity. Qed.

Example fetch_users_object :
  participants (fetchParticipants JSON_stringify to_string (Resolved (JObj [("users", ab)])) init) = ab.
Proof. reflexivity. Qed.

Example fetch_participants_object :
  participants (fetchParticipants JSON_stringify to_string (Resolved (JObj [("participants", ab)])) init) = ab.
Proof. reflexivity. Qed.

Example fetch_unknown_field :
  participants (fetchParticipants JSON_stringify to_string (Resolved (JObj [("unknown_field", ab)])) (mkState ab [] []))
  = JArr []
  /\ debug_log (fetchParticipants JSON_stringify to_string (Resolved (JObj [("unknown_field", ab); ("other", JNull)])) init)
     = [("Participants response structure: "
           ++ JSON_stringify (JObj [("unknown_field", ab); ("other", JNull)]), None);
        ("Available keys in response: unknown_field, other", Some "warning");
        ("Fetched " ++ to_string (JNum 0) ++ " participants", None)].
Proof. split; reflexivity. Qed.

(** A property that is absent reads as [undefined], which is falsy. *)
Lemma absent_key_falsy (v : JSValue) (k : string) :
  Js.has_key v k = false -> Js.truthy (Js.get v k) = false.
Proof.
  destruct v; try reflexivity. simpl.
  destruct (Js.lookup k fields); [discriminate | reflexivity].
Qed.

(** C6: a bare sequence, an object holding the sequence under "users" and an
    object holding it under "participants" all give that sequence as the
    participant set; "users" is probed before "participants"; an object with
    neither field gives the empty set. [fetchParticipants] is total: its body
    is inside try/catch and always ends by storing a participant set. *)
Theorem fetchParticipants_shape_tolerant
        (l l' : list JSValue) (fs : list (string * JSValue)) (st : State)
        (Hu : Js.has_key (JObj fs) "users" = false)
        (Hp : Js.has_key (JObj fs) "participants" = false) :
  participants (fetchParticipants JSON_stringify to_string (Resolved (JArr l)) st) = JArr l
  /\ participants (fetchParticipants JSON_stringify to_string (Resolved (JObj [("users", JArr l)])) st) = JArr l
  /\ participants (fetchParticipants JSON_stringify to_string (Resolved (JObj [("participants", JArr l)])) st) = JArr l
  /\ participants (fetchParticipants JSON_stringify to_string (Resolved (JObj [("participants", JArr l'); ("users", JArr l)])) st)
     = JArr l
  /\ participants (fetchParticipants JSON_stringify to_string (Resolved (JObj fs)) st) = JArr []
  /\ rendered (fetchParticipants JSON_stringify to_string (Resolved (JObj fs)) st) = (rendered st ++ [JArr []])%list.
Proof.
  repeat split; try reflexivity.
  - unfold fetchParticipants. cbn [Js.isArray Js.truthy Js.typeof_object andb].
    now rewrite (absent_key_falsy _ _ Hu), (absent_key_falsy _ _ Hp).
  - unfold fetchParticipants. cbn [Js.isArray Js.truthy Js.typeof_object andb].
    now rewrite (absent_key_falsy _ _ Hu), (absent_key_falsy _ _ Hp).
Qed.

(** C7: an update that is neither a sequence nor an object with a "users" or
    "participants" field changes neither the participant set nor what has
    been rendered; only a diagnostic line is logged. *)
Theorem updateParticipants_unrecognized_keeps_prior
        (v : JSValue) (st : State)
        (Harr : Js.isArray v = false)
        (Hu : Js.has_key v "users" = false)
        (Hp : Js.has_key v "participants" = false) :
  participants (updateParticipants JSON_stringify to_string v st) = participants st
  /\ rendered (updateParticipants JSON_stringify to_string v st) = rendered st.
Proof.
  unfold updateParticipants. rewrite Harr.
  rewrite (absent_key_falsy _ _ Hu), (absent_key_falsy _ _ Hp).
  destruct (Js.truthy v && Js.typeof_object v); split; reflexivity.
Qed.

End Shapes.

Lemma fetchParticipants_shape_tolerant_witness :
  let st := fetchParticipants (fun _ => "") (fun _ => "")
              (Resolved (JObj [("unknown_field", ab)])) (mkState ab [] []) in
  participants st = JArr [] /\ rendered st = [JArr []].
Proof.
  pose proof (fetchParticipants_shape_tolerant (fun _ => "") (fun _ => "")
                [JStr "a"; JStr "b"] [] [("unknown_field", ab)] (mkState ab [] [])
                eq_refl eq_refl) as H.
  split; apply H.
Defined.

Lemma updateParticipants_unrecognized_witness :
  let prior := mkState ab [ab] [] in
  participants (updateParticipants (fun _ => "") (fun _ => "")
                  (JObj [("unknown_field", JArr [JStr "c"])]) prior) = ab.
Proof.
  apply (updateParticipants_unrecognized_keeps_prior (fun _ => "") (fun _ => "")
           (JObj [("unknown_field", JArr [JStr "c"])]) (mkState ab [ab] [])
           eq_refl eq_refl eq_refl).
Defined.

End PresenceSpec.

(** ** Relay health probe *)

Module RelaySpec.

Import Relay.

Open Scope Z_scope.

Example probe_never_connects :
  let st := run_probe ["connecting"; "connecting"; "disconnected"; "suspended";
                       "connected"]%string (start 0) in
  mockAblyFallback st = Some mockAbly
  /\ checked_at st = [5000; 10000; 15000; 20000]
  /\ timer st = None
  /\ installs st = 1%nat.
Proof. repeat split. Qed.

Example probe_connects_on_third_check :
  let st := run_probe ["connecting"; "connecting"; "connected"; "failed";
                       "failed"; "failed"; "failed"]%string (start 0) in
  mockAblyFallback st = None
  /\ checked_at st = [5000; 10000; 15000]
  /\ timer st = None.
Proof. repeat split. Qed.

(** A check that is pending runs as soon as the clock reaches its time. *)
Lemma run_probe_cons (o : string) (rest : list string) (st : State) (d : Z) :
  timer st = Some d -> now st <= d ->
  run_probe (o :: rest) st
  = run_probe rest
      (checkConnectionState o
         (mkState (connectionAttempts st) (mockAblyFallback st) None d
                  (debug_log st) (checked_at st) (installs st))).
Proof.
  intros Ht Hd. cbn [run_probe step]. rewrite Ht.
  replace (0 <=? d - now st) with true by (symmetry; apply Z.leb_le; lia).
  cbn [timer now connectionAttempts mockAblyFallback debug_log checked_at installs].
  replace (now st + (d - now st)) with d by lia.
  now rewrite Z.leb_refl.
Qed.

(** Without a pending check nothing runs any more. *)
Lemma run_probe_idle (observed : list string) (st : State) :
  timer st = None -> run_probe observed st = st.
Proof. intros Ht. destruct observed; cbn [run_probe]; [|rewrite Ht]; reflexivity. Qed.

Lemma step_check_idle (state : string) (st : State) :
  timer st = None -> step (Check_fire state) st = None.
Proof. intros Ht. cbn [step]. now rewrite Ht. Qed.

(** Observations are consumed in order. *)
Lemma run_probe_app (a b : list string) (st : State) :
  run_probe (a ++ b) st = run_probe b (run_probe a st).
Proof.
  revert st. induction a as [|o a IH]; intros st; [reflexivity|].
  cbn [app run_probe].
  destruct (timer st) as [d|] eqn:Ht.
  - destruct (step (Tick (d - now st)) st) as [st1|] eqn:H1.
    + destruct (step (Check_fire o) st1) as [st2|] eqn:H2; [apply IH|].
      destruct b as [|o' b]; [reflexivity|].
      cbn [run_probe]. rewrite Ht, H1.
      cbn [step] in H2 |- *.
      destruct (timer st1); [|reflexivity].
      destruct (_ <=? _); [discriminate | reflexivity].
    + destruct b as [|o' b]; [reflexivity|].
      cbn [run_probe]. now rewrite Ht, H1.
  - now rewrite run_probe_idle.
Qed.

Lemma probing_start (t0 : Z) : probing t0 0 (start t0).
Proof.
  split; try reflexivity; unfold start, setTimeout, check_time; cbn; lia.
Qed.

(** What the probe has done after reading [observed], from a state between
    two checks. *)
Lemma probe_from (t0 : Z) (observed : list string) :
  forall (k : nat) (st : State),
    (k <= 3)%nat -> probing t0 k st ->
    let st' := run_probe observed st in
    let k' := connectionAttempts st' in
    checked_at st' = map (check_time t0) (seq 1 k')
    /\ (k <= k' <= 4)%nat
    /\ is_installed st'
       = ((4 - k <=? length observed)%nat
          && forallb not_connected (firstn (4 - k) observed))%bool
    /\ mockAblyFallback st' = (if is_installed st' then Some mockAbly else None)
    /\ installs st' = (if is_installed st' then 1 else 0)%nat
    /\ is_pending st'
       = (negb (is_installed st')
          && negb (existsb is_connected (firstn (k' - k) observed)))%bool.
Proof.
  induction observed as [|o rest IH]; intros k st Hk [P1 P2 P3 P4 P5 P6]; cbv zeta.
  - cbn [run_probe]. unfold is_installed, is_pending.
    rewrite P1, P2, P3, P5, P6, Nat.sub_diag.
    destruct (4 - k)%nat eqn:E; [lia|]. cbn. repeat split; lia.
  - rewrite (run_probe_cons o rest st _ P3 P4).
    unfold checkConnectionState.
    cbn [connectionAttempts mockAblyFallback timer now debug_log checked_at installs].
    rewrite P1, P2, P5, P6.
    assert (Hseq : (map (check_time t0) (seq 1 k) ++ [check_time t0 (S k)])%list
                   = map (check_time t0) (seq 1 (S k))).
    { now rewrite seq_S, map_app. }
    destruct (4 - k)%nat as [|m] eqn:Em; [lia|].
    unfold is_connected, not_connected in *.
    destruct (String.eqb o "connected") eqn:Eo.
    + rewrite run_probe_idle by reflexivity.
      unfold is_installed, is_pending, logDebug.
      cbn [connectionAttempts mockAblyFallback timer now debug_log checked_at installs].
      replace (S k - k)%nat with 1%nat by lia.
      cbn [firstn forallb existsb negb andb orb length]. rewrite Eo.
      cbn [negb andb orb]. rewrite Bool.andb_false_r.
      repeat split; try assumption; lia.
    + destruct (Nat.ltb_spec 3 (S k)) as [Hlast|Hmore].
      * rewrite run_probe_idle by reflexivity.
        unfold is_installed, is_pending, logDebug.
        cbn [connectionAttempts mockAblyFallback timer now debug_log checked_at installs].
        assert (m = 0)%nat by lia. subst m.
        cbn [firstn forallb existsb negb andb orb length Nat.leb]. rewrite Eo.
        cbn [negb andb orb].
        repeat split; try assumption; lia.
      * match goal with
        | |- context [run_probe rest ?s] =>
            destruct (IH (S k) s) as (I1 & I2 & I3 & I4 & I5 & I6)
        end.
        { lia. }
        { unfold setTimeout.
          split;
            cbn [connectionAttempts mockAblyFallback timer now debug_log checked_at installs];
            try reflexivity; try assumption;
            unfold check_time in *; try (f_equal; lia); lia. }
        cbv zeta in I1, I2, I3, I4, I5, I6.
        replace (4 - S k)%nat with m in I3 by lia.
        match goal with
        | |- context [run_probe rest ?s] => set (st' := run_probe rest s) in *
        end.
        replace (connectionAttempts st' - k)%nat
          with (S (connectionAttempts st' - S k)) by lia.
        cbn [firstn forallb existsb length Nat.leb]. rewrite Eo.
        cbn [negb andb orb].
        repeat split; try assumption; lia.
Qed.

(** What the probe has done after reading [observed], in closed form. *)
Lemma probe_closed_form (t0 : Z) (observed : list string) :
  let st := run_probe observed (start t0) in
  let k := connectionAttempts st in
  checked_at st = map (check_time t0) (seq 1 k)
  /\ (k <= 4)%nat
  /\ is_installed st
     = ((4 <=? length observed)%nat && forallb not_connected (firstn 4 observed))%bool
  /\ mockAblyFallback st = (if is_installed st then Some mockAbly else None)
  /\ installs st = (if is_installed st then 1 else 0)%nat
  /\ is_pending st
     = (negb (is_installed st) && negb (existsb is_connected (firstn k observed)))%bool.
Proof.
  destruct (probe_from t0 observed 0 (start t0)) as (H1 & H2 & H3 & H4 & H5 & H6);
    [lia | apply probing_start |].
  cbv zeta in *. rewrite Nat.sub_0_r in H6.
  repeat split; try assumption; lia.
Qed.

(** C9: the checks of the relay run 5000 ms apart (the i-th at
    [t0 + 5000 * i]), there are never more than four, the substitute is
    installed exactly when four checks in a row saw a state other than
    "connected", by a single assignment; after a check that saw "connected"
    or after the installation no check is pending, so whatever the relay
    reports later the probe does not run again and the outcome stays. The
    substitute's subscribe and publish answer [true] and its close does
    nothing. *)
Theorem relay_probe_degrades_once (t0 : Z) (observed : list string) :
  let st := run_probe observed (start t0) in
  let k := connectionAttempts st in
  checked_at st = map (fun i => t0 + 5000 * Z.of_nat i) (seq 1 k)
  /\ (k <= 4)%nat
  /\ is_installed st
     = ((4 <=? length observed)%nat && forallb not_connected (firstn 4 observed))%bool
  /\ mockAblyFallback st = (if is_installed st then Some mockAbly else None)
  /\ installs st = (if is_installed st then 1 else 0)%nat
  /\ is_pending st
     = (negb (is_installed st) && negb (existsb is_connected (firstn k observed)))%bool
  /\ (forall more, is_pending st = false ->
        run_probe (observed ++ more) (start t0) = st)
  /\ (forall state, is_pending st = false -> step (Check_fire state) st = None)
  /\ (forall channelName eventName data s,
        fst (mock_subscribe channelName eventName s) = true
        /\ fst (mock_publish channelName eventName data s) = true
        /\ mock_close s = s
        /\ connection_state mockAbly = "connected"%string).
Proof.
  cbv zeta.
  destruct (probe_closed_form t0 observed) as (H1 & H2 & H3 & H4 & H5 & H6).
  split; [exact H1|].
  repeat split; try assumption.
  - intros more Hidle. rewrite run_probe_app. apply run_probe_idle.
    unfold is_pending in Hidle. now destruct (timer _).
  - intros state Hidle. apply step_check_idle.
    unfold is_pending in Hidle. now destruct (timer _).
Qed.

End RelaySpec.

(** ** The connection manager *)

Module ManagerSpec.

Import WebSocketClient.

Local Open Scope list_scope.

(** *** Subscriber dispatch *)

Lemma forEach_spec (env : Env) (hs : list Handler) (args : list JSValue) (st : State) :
  forEach env hs args st
  = (completion_of (first_raise env hs args),
     record_calls (invoked env hs args) args st).
Proof.
  revert st. induction hs as [|h rest IH]; intros st.
  - destruct st. unfold record_calls, set_calls. cbn. now rewrite app_nil_r.
  - cbn [forEach invoked first_raise find]. unfold bind, invoke, modify, bind.
    destruct (raises env h args) eqn:Hr.
    + reflexivity.
    + cbn [ret]. rewrite IH. unfold record_calls, set_calls. cbn.
      now rewrite <- app_assoc.
Qed.

Lemma publish_spec (env : Env) (k : EventKind) (args : list JSValue) (st : State) :
  publish env k args st
  = (completion_of (first_raise env (handlers_of k (subscribers st)) args),
     record_calls (invoked env (handlers_of k (subscribers st)) args) args st).
Proof. unfold publish, bind, gets. apply forEach_spec. Qed.

Lemma invoked_all (env : Env) (hs : list Handler) (args : list JSValue) :
  first_raise env hs args = None -> invoked env hs args = hs.
Proof.
  unfold first_raise. induction hs as [|h rest IH]; cbn; [reflexivity|].
  destruct (raises env h args); [discriminate|]. intros H. now rewrite IH.
Qed.

Lemma invoked_prefix (env : Env) (hs : list Handler) (args : list JSValue) (h : Handler) :
  first_raise env hs args = Some h ->
  exists before after,
    hs = before ++ h :: after
    /\ invoked env hs args = before ++ [h]
    /\ raises env h args = true
    /\ forallb (fun x => negb (raises env x args)) before = true.
Proof.
  unfold first_raise. induction hs as [|x rest IH]; cbn; [discriminate|].
  destruct (raises env x args) eqn:Hx.
  - intros [= ->]. exists [], rest. now rewrite Hx.
  - intros H. destruct (IH H) as (before & after & -> & Hi & Hr & Hb).
    exists (x :: before), after. cbn. now rewrite Hi, Hx, Hb.
Qed.

Lemma handlers_of_with (k : EventKind) (l : list Handler) (s : Subscribers) :
  handlers_of k (with_handlers k l s) = l.
Proof. now destruct k. Qed.

(** The catch of [onmessage] lets no exception out. *)
Lemma onmessage_caught (env : Env) (rawData : string) (st : State) :
  fst (onmessage env rawData st) = Normal tt.
Proof.
  unfold onmessage, try_catch.
  match goal with |- context [match ?c st with _ => _ end] => destruct (c st) as [[[]|e] st'] end;
    reflexivity.
Qed.

(** What [onmessage] does with a frame that parses to an object of a known
    type. *)
Lemma onmessage_dispatch (env : Env) (rawData : string) (fs : list (string * JSValue))
      (k : EventKind) (args : list JSValue) (st : State) :
  JSON_parse env rawData = Some (JObj fs) ->
  inbound (JObj fs) = Some (k, args) ->
  let hs := handlers_of k (subscribers st) in
  let st' := snd (onmessage env rawData st) in
  calls st' = calls st ++ map (fun h => (h, args)) (invoked env hs args)
  /\ console st'
     = console st
         ++ (info, "Message received")
         :: (if is_error_kind k then [(error, "Error from server")] else [])
         ++ match first_raise env hs args with
            | Some _ => [(error, "Error processing message")]
            | None => []
            end.
Proof.
  intros Hparse Hin. cbv zeta.
  unfold onmessage, try_catch, bind, modify. rewrite Hparse.
  cbn [ret read_type]. unfold inbound in Hin. cbn [ret] in *.
  destruct (is_type (Js.get (JObj fs) "type") "message").
  { injection Hin as <- <-. rewrite publish_spec.
    destruct (first_raise env _ _); cbn; rewrite <- ?app_assoc; split; reflexivity. }
  destruct (is_type (Js.get (JObj fs) "type") "user_joined").
  { injection Hin as <- <-. rewrite publish_spec.
    destruct (first_raise env _ _); cbn; rewrite <- ?app_assoc; split; reflexivity. }
  destruct (is_type (Js.get (JObj fs) "type") "user_left").
  { injection Hin as <- <-. rewrite publish_spec.
    destruct (first_raise env _ _); cbn; rewrite <- ?app_assoc; split; reflexivity. }
  destruct (is_type (Js.get (JObj fs) "type") "error"); [|discriminate].
  injection Hin as <- <-. rewrite publish_spec.
  destruct (first_raise env _ _); cbn; rewrite <- ?app_assoc; split; reflexivity.
Qed.

(** C8, as stated, fails: with subscribers 1 and 2 on 'message', in that
    order, and subscriber 1 raising, an inbound chat frame reaches
    subscriber 1 only; subscriber 2 is never called. *)
Lemma raising_subscriber_ends_dispatch :
  let result :=
    run faulty_env
        [Call_on message 1; Call_on message 2; Call_connect alice;
         Socket_open 0; Socket_message 0 chat_frame_text] init in
  option_map (fun st => onMessageHandlers (subscribers st)) result = Some [1; 2]
  /\ raises faulty_env 1 [JStr "u2"; JStr "hi"] = true
  /\ option_map calls result = Some [(1, [JStr "u2"; JStr "hi"])].
Proof. repeat split; vm_compute; reflexivity. Qed.

(** C8, amended: publishing calls the subscribers of the kind in
    subscription order ([on] appends), up to and including the first one that
    raises; when none raises all of them are called and the dispatch
    completes. A subscriber that raises ends the dispatch: those subscribed
    after it are not called. For an inbound frame the exception is caught and
    reported on the console ("Error processing message"); [onmessage] itself
    never raises. *)
Theorem publish_runs_until_first_raise
        (env : Env) (k : EventKind) (args : list JSValue) (st : State) :
  let hs := handlers_of k (subscribers st) in
  let r := publish env k args st in
  calls (snd r) = calls st ++ map (fun h => (h, args)) (invoked env hs args)
  /\ fst r = completion_of (first_raise env hs args)
  /\ (first_raise env hs args = None -> invoked env hs args = hs)
  /\ (forall h, first_raise env hs args = Some h ->
        exists before after,
          hs = before ++ h :: after
          /\ invoked env hs args = before ++ [h]
          /\ raises env h args = true
          /\ forallb (fun x => negb (raises env x args)) before = true)
  /\ (forall h, handlers_of k (subscribers (on k h st)) = hs ++ [h])
  /\ (forall rawData, fst (onmessage env rawData st) = Normal tt)
  /\ (forall rawData fs k' args',
        JSON_parse env rawData = Some (JObj fs) ->
        inbound (JObj fs) = Some (k', args') ->
        let hs' := handlers_of k' (subscribers st) in
        let st' := snd (onmessage env rawData st) in
        calls st' = calls st ++ map (fun h => (h, args')) (invoked env hs' args')
        /\ console st'
           = console st
               ++ (info, "Message received")
               :: (if is_error_kind k' then [(error, "Error from server")] else [])
               ++ match first_raise env hs' args' with
                  | Some _ => [(error, "Error processing message")]
                  | None => []
                  end).
Proof.
  cbv zeta. rewrite publish_spec. cbn [fst snd].
  split; [reflexivity|]. split; [reflexivity|].
  split; [apply invoked_all|]. split; [intros h; apply invoked_prefix|].
  split; [intros h; unfold on; cbn; apply handlers_of_with|].
  split; [intros; apply onmessage_caught|].
  intros rawData fs k' args' Hp Hi.
  exact (onmessage_dispatch env rawData fs k' args' st Hp Hi).
Qed.

(** *** Sockets and timers under the operations *)

Lemma nth_error_update_socket (ref : nat) (f : WebSocket -> WebSocket)
      (l : list WebSocket) (r : nat) :
  nth_error (update_socket ref f l) r
  = if Nat.eqb r ref then option_map f (nth_error l r) else nth_error l r.
Proof.
  revert ref r. induction l as [|w l IH]; intros ref r.
  - destruct ref, r; cbn; try reflexivity; now destruct (Nat.eqb r ref).
  - destruct ref, r; cbn; try reflexivity. apply IH.
Qed.

Lemma length_update_socket (ref : nat) (f : WebSocket -> WebSocket) (l : list WebSocket) :
  length (update_socket ref f l) = length l.
Proof.
  revert ref. induction l as [|w l IH]; intros [|ref]; cbn; auto.
Qed.

(** The state of a socket after [close()] or after a state change. *)
Lemma readyState_ws_close (ref r : nat) (st : State) :
  ws_readyState r (ws_close ref st)
  = if Nat.eqb r ref
    then option_map (fun s => if is_live s then CLOSING else s) (ws_readyState r st)
    else ws_readyState r st.
Proof.
  unfold ws_readyState, ws_close. proj. rewrite nth_error_update_socket.
  destruct (Nat.eqb r ref); [|reflexivity].
  destruct (nth_error (sockets st) r) as [w|]; [|reflexivity].
  destruct w as [u [] ob]; reflexivity.
Qed.

Lemma readyState_set_readyState (ref r : nat) (s : ReadyState) (st : State) :
  ws_readyState r (set_readyState ref s st)
  = if Nat.eqb r ref
    then option_map (fun _ => s) (ws_readyState r st)
    else ws_readyState r st.
Proof.
  unfold ws_readyState, set_readyState. proj. rewrite nth_error_update_socket.
  destruct (Nat.eqb r ref); [|reflexivity].
  now destruct (nth_error (sockets st) r).
Qed.

Lemma readyState_ws_send (ref r : nat) (fr : JSValue) (st : State) :
  ws_readyState r (ws_send ref fr st) = ws_readyState r st.
Proof.
  unfold ws_readyState, ws_send. proj. rewrite nth_error_update_socket.
  destruct (Nat.eqb r ref); [|reflexivity].
  now destruct (nth_error (sockets st) r).
Qed.

Lemma readyState_new_WebSocket (u : string) (r : nat) (st : State) :
  ws_readyState r (set_sockets (sockets st ++ [mkWebSocket u CONNECTING []]) st)
  = if Nat.eqb r (length (sockets st)) then Some CONNECTING else ws_readyState r st.
Proof.
  unfold ws_readyState. proj.
  destruct (Nat.eqb r (length (sockets st))) eqn:E.
  - apply Nat.eqb_eq in E. subst r.
    now rewrite nth_error_app2, Nat.sub_diag by lia.
  - apply Nat.eqb_neq in E.
    destruct (Nat.lt_ge_cases r (length (sockets st))) as [Hlt|Hge].
    + now rewrite nth_error_app1.
    + rewrite (proj2 (nth_error_None _ _)) by (rewrite length_app; cbn; lia).
      now rewrite (proj2 (nth_error_None _ _)) by lia.
Qed.

Lemma readyState_out_of_range (r : nat) (st : State) :
  length (sockets st) <= r -> ws_readyState r st = None.
Proof.
  intros H. unfold ws_readyState. now rewrite (proj2 (nth_error_None _ _)).
Qed.

(** The live channels, as a list without repetition. *)
Lemma In_live_refs (st : State) (r : nat) :
  In r (live_refs st) <-> is_live_ref st r = true.
Proof.
  unfold live_refs. rewrite filter_In, in_seq. split; [tauto|].
  intros H. split; [|exact H]. split; [lia|]. cbn.
  destruct (Nat.lt_ge_cases r (length (sockets st))) as [Hlt|Hge]; [exact Hlt|].
  unfold is_live_ref in H. now rewrite readyState_out_of_range in H.
Qed.

Lemma NoDup_live_refs (st : State) : NoDup (live_refs st).
Proof. apply NoDup_filter, seq_NoDup. Qed.

Lemma NoDup_all_equal_length (l : list nat) :
  NoDup l -> (forall x y, In x l -> In y l -> x = y) -> length l <= 1.
Proof.
  intros Hnd Heq. destruct l as [|a [|b l]]; cbn; try lia.
  exfalso. inversion Hnd as [|? ? Hnotin _]; subst.
  apply Hnotin. rewrite (Heq a b); cbn; auto.
Qed.

Lemma NoDup_singleton (l : list nat) (n : nat) :
  NoDup l -> In n l -> (forall x, In x l -> x = n) -> l = [n].
Proof.
  intros Hnd Hin Hall.
  assert (Hlen : length l <= 1).
  { apply NoDup_all_equal_length; [exact Hnd|].
    intros x y Hx Hy. now rewrite (Hall x Hx), (Hall y Hy). }
  destruct l as [|a [|b l]].
  - destruct Hin.
  - rewrite (Hall a); [reflexivity | now left].
  - cbn in Hlen. lia.
Qed.

(** *** What the manager tracks *)

Lemma same_core_refl (st : State) : same_core st st.
Proof. repeat split. Qed.

Lemma same_core_trans (a b c : State) :
  same_core a b -> same_core b c -> same_core a c.
Proof.
  intros (H1 & H2 & H3 & H4 & H5 & H6) (K1 & K2 & K3 & K4 & K5 & K6).
  repeat split; try congruence.
Qed.

Lemma tracked_same_core (st st' : State) :
  same_core st st' -> tracked st -> tracked st'.
Proof.
  intros (H1 & H2 & H3 & H4 & H5 & H6) [Hl Hh Ht]. split.
  - intros ref. unfold is_live_ref. rewrite H6, H1. apply Hl.
  - intros ref. rewrite H6, H1. apply Hh.
  - rewrite H1, H2, H3. exact Ht.
Qed.

Lemma same_core_clientLog (lvl : Level) (msg : string) (st : State) :
  same_core st (clientLog lvl msg st).
Proof. repeat split. Qed.

Lemma same_core_record_calls (hs : list Handler) (args : list JSValue) (st : State) :
  same_core st (record_calls hs args st).
Proof. repeat split. Qed.

Lemma same_core_set_connected (b : bool) (st : State) :
  same_core st (set_connected b st).
Proof. repeat split. Qed.

Lemma same_core_send (ty : string) (data : list (string * JSValue)) (st : State) :
  same_core st (snd (send ty data st)).
Proof.
  unfold send.
  destruct (socket st) as [ref|]; [|repeat split].
  destruct (ws_readyState ref st) as [[]|]; try (repeat split).
  intros r. cbn [snd]. now rewrite readyState_ws_send.
Qed.

Lemma same_core_publish (env : Env) (k : EventKind) (args : list JSValue) (st : State) :
  same_core st (snd (publish env k args st)).
Proof. rewrite publish_spec. apply same_core_record_calls. Qed.

Lemma same_core_onopen (env : Env) (st : State) :
  same_core st (deliver (onopen env) st).
Proof.
  unfold deliver, onopen, bind, modify, gets. proj.
  destruct (userInfo st) as [u|].
  - unfold bind. cbn [ret].
    eapply same_core_trans; [|apply same_core_publish].
    eapply same_core_trans; [|apply same_core_send].
    repeat split.
  - cbn [ret]. eapply same_core_trans; [|apply same_core_publish]. repeat split.
Qed.

Lemma same_core_onmessage (env : Env) (rawData : string) (st : State) :
  same_core st (deliver (onmessage env rawData) st).
Proof.
  assert (Hcatch : forall st0 st1, same_core st0 st1 ->
            same_core st0 (clientLog error "Error processing message" st1)).
  { intros st0 st1 H. eapply same_core_trans; [exact H|apply same_core_clientLog]. }
  assert (Hpub : forall k args st1, same_core st st1 ->
            same_core st (snd (try_catch (publish env k args)
              (fun _ => modify (clientLog error "Error processing message")) st1))).
  { intros k args st1 H. unfold try_catch. rewrite publish_spec.
    destruct (first_raise env _ _); cbn [completion_of modify snd].
    - apply Hcatch. eapply same_core_trans; [exact H|apply same_core_record_calls].
    - eapply same_core_trans; [exact H|apply same_core_record_calls]. }
  unfold deliver, onmessage, try_catch, bind, modify in *.
  destruct (JSON_parse env rawData) as [data|]; cbn [ret throw].
  2: { cbn. repeat split. }
  unfold read_type.
  destruct data; cbn [ret throw snd]; try (repeat split; fail);
    repeat match goal with
    | |- context [if ?b then _ else _] => destruct b
    end;
    try (apply (Hpub _ _ (clientLog info "Message received" st)); repeat split);
    try (repeat split; fail).
  all: rewrite publish_spec; destruct (first_raise env _ _); cbn; repeat split.
Qed.

Lemma same_core_onerror (env : Env) (st : State) :
  same_core st (deliver (onerror env) st).
Proof.
  unfold deliver, onerror, bind, modify, gets.
  eapply same_core_trans; [|apply same_core_publish]. repeat split.
Qed.

(** [onclose], once unfolded: the disconnect subscribers are notified, and
    unless one of them raises a reconnection is scheduled for a stored
    identity. *)
Lemma onclose_spec (env : Env) (st : State) :
  let st1 := set_socket None (set_connected false
               (clientLog info "WebSocket disconnected" st)) in
  let hs := onDisconnectHandlers (subscribers st) in
  let st2 := record_calls (invoked env hs []) [] st1 in
  deliver (onclose env) st
  = match first_raise env hs [], userInfo st with
    | None, Some _ =>
        let st3 := clientLog info "Scheduling reconnect attempt in 5 seconds" st2 in
        set_reconnectTimer (Some (S (timer_count st)))
          (snd (setTimeout reconnect_delay st3))
    | _, _ => st2
    end.
Proof.
  cbv zeta. unfold deliver, onclose, bind, modify, gets.
  rewrite publish_spec. proj. cbn [handlers_of].
  destruct (first_raise env _ _); cbn [completion_of snd]; [reflexivity|].
  unfold record_calls. proj. destruct (userInfo st); reflexivity.
Qed.

Lemma clear_reconnectTimer_core (st : State) :
  socket (clear_reconnectTimer st) = socket st
  /\ userInfo (clear_reconnectTimer st) = userInfo st
  /\ customServerUrl (clear_reconnectTimer st) = customServerUrl st
  /\ sockets (clear_reconnectTimer st) = sockets st
  /\ connected (clear_reconnectTimer st) = connected st.
Proof.
  unfold clear_reconnectTimer. destruct (reconnectTimer st) as [[|h]|]; repeat split.
Qed.

(** Cancelling the tracked timeout leaves none pending when the tracked one
    was the only one. *)
Lemma clear_reconnectTimer_tracked (st : State) :
  (timers st = []
   \/ exists t, timers st = [t] /\ reconnectTimer st = Some (handle t) /\ handle t <> 0) ->
  timers (clear_reconnectTimer st) = [].
Proof.
  unfold clear_reconnectTimer. intros [H|(t & H & Hr & Hnz)].
  - destruct (reconnectTimer st) as [[|h]|]; unfold clearTimeout; proj;
      rewrite ?H; reflexivity.
  - rewrite Hr. destruct (handle t) as [|h] eqn:Eh; [contradiction|].
    proj. unfold clearTimeout. proj. rewrite H. cbn. rewrite Eh.
    now rewrite Nat.eqb_refl.
Qed.

Lemma tracked_timer_weaken (st : State) :
  tracked st ->
  timers st = []
  \/ exists t, timers st = [t] /\ reconnectTimer st = Some (handle t) /\ handle t <> 0.
Proof.
  intros [_ _ [H|(t & H1 & H2 & H3 & _)]]; [now left|right; eauto].
Qed.

(** [connect], on both paths of the constructor. *)
Lemma connect_unfold (env : Env) (u : UserInfo) (st : State) :
  let st0 := clear_reconnectTimer
               (clientLog info "Connecting to WebSocket server"
                  (set_userInfo (Some u) st)) in
  let wsUrl := getWebSocketUrl env (customServerUrl st) in
  connect env u st
  = match WebSocket_throws env wsUrl with
    | Some e => (Thrown e, st0)
    | None =>
        (Normal tt,
         set_socket (Some (length (sockets st)))
           (set_sockets (sockets st ++ [mkWebSocket wsUrl CONNECTING []]) st0))
    end.
Proof.
  cbv zeta.
  unfold connect, bind, modify, gets, new_WebSocket, clear_reconnectTimer, clearTimeout.
  proj.
  destruct (reconnectTimer st) as [[|h]|]; proj;
    destruct (WebSocket_throws env _); reflexivity.
Qed.

(** [connect], field by field. *)
Lemma connect_spec (env : Env) (u : UserInfo) (st : State) :
  let st' := snd (connect env u st) in
  let wsUrl := getWebSocketUrl env (customServerUrl st) in
  socket st' = (if accepts env wsUrl then Some (length (sockets st)) else socket st)
  /\ sockets st'
     = sockets st ++ (if accepts env wsUrl then [mkWebSocket wsUrl CONNECTING []] else [])
  /\ userInfo st' = Some u
  /\ customServerUrl st' = customServerUrl st
  /\ timers st' = timers (clear_reconnectTimer st)
  /\ (forall r, ws_readyState r st'
                = if accepts env wsUrl && Nat.eqb r (length (sockets st))
                  then Some CONNECTING
                  else ws_readyState r st)
  /\ fst (connect env u st)
     = match WebSocket_throws env wsUrl with
       | Some e => Thrown e
       | None => Normal tt
       end
  /\ connected st' = connected st.
Proof.
  cbv zeta. rewrite connect_unfold. cbv zeta. unfold accepts.
  destruct (WebSocket_throws env _) as [e|]; cbn [fst snd andb];
    unfold clear_reconnectTimer, clearTimeout; proj;
    destruct (reconnectTimer st) as [[|h]|]; proj; rewrite ?app_nil_r;
    repeat split;
    try (intros r; apply (readyState_new_WebSocket _ r st)).
Qed.

Lemma close_if_live_core (o : option nat) (st : State) :
  let st1 := close_if_live o st in
  socket st1 = socket st /\ userInfo st1 = userInfo st
  /\ customServerUrl st1 = customServerUrl st
  /\ timers st1 = timers st /\ reconnectTimer st1 = reconnectTimer st
  /\ length (sockets st1) = length (sockets st)
  /\ forall r, ws_readyState r st1
               = if match o with Some ref => Nat.eqb r ref | None => false end
                 then option_map (fun s => if is_live s then CLOSING else s)
                                 (ws_readyState r st)
                 else ws_readyState r st.
Proof.
  cbv zeta. unfold close_if_live.
  destruct o as [ref|]; [|repeat split].
  destruct (ws_readyState ref st) as [[]|] eqn:E.
  1,2: repeat split; try (unfold ws_close; proj; apply length_update_socket);
       intros r; apply readyState_ws_close.
  all: repeat split; intros r;
       destruct (Nat.eqb r ref) eqn:Er; try reflexivity;
       apply Nat.eqb_eq in Er; subst r; now rewrite E.
Qed.

(** [disconnect], field by field. *)
Lemma disconnect_spec (st : State) :
  let st' := disconnect st in
  socket st' = None
  /\ connected st' = false
  /\ userInfo st' = userInfo st
  /\ customServerUrl st' = customServerUrl st
  /\ length (sockets st') = length (sockets st)
  /\ (forall r, ws_readyState r st'
                = if match socket st with Some ref => Nat.eqb r ref | None => false end
                  then option_map (fun s => if is_live s then CLOSING else s)
                                  (ws_readyState r st)
                  else ws_readyState r st)
  /\ ((timers st = []
       \/ exists t, timers st = [t] /\ reconnectTimer st = Some (handle t) /\ handle t <> 0) ->
      timers st' = []).
Proof.
  cbv zeta.
  unfold disconnect.
  destruct (close_if_live_core (socket st) st) as (S1 & S2 & S3 & S4 & S5 & S6 & S7).
  destruct (clear_reconnectTimer_core (close_if_live (socket st) st))
    as (C1 & C2 & C3 & C4 & C5).
  proj. repeat split; try congruence.
  - intros r. rewrite <- S7. unfold ws_readyState. proj. now rewrite C4.
  - intros Ht. apply clear_reconnectTimer_tracked. now rewrite S4, S5.
Qed.

Lemma no_live_refs (st : State) :
  live_refs st = [] <-> forall r, is_live_ref st r = false.
Proof.
  split.
  - intros H r. destruct (is_live_ref st r) eqn:E; [|reflexivity].
    apply In_live_refs in E. rewrite H in E. destruct E.
  - intros H. destruct (live_refs st) as [|r l] eqn:E; [reflexivity|].
    assert (Hin : In r (live_refs st)) by (rewrite E; now left).
    apply In_live_refs in Hin. now rewrite H in Hin.
Qed.

Lemma tracked_disconnect (st : State) :
  tracked st ->
  tracked (disconnect st)
  /\ live_refs (disconnect st) = []
  /\ timers (disconnect st) = [].
Proof.
  intros Htr.
  destruct (disconnect_spec st) as (D1 & _ & _ & _ & _ & D6 & D7).
  specialize (D7 (tracked_timer_weaken st Htr)).
  assert (Hdead : forall r, is_live_ref (disconnect st) r = false).
  { intros r. unfold is_live_ref. rewrite D6.
    destruct (socket st) as [ref|] eqn:Es.
    - destruct (Nat.eqb r ref) eqn:Er.
      + destruct (ws_readyState r st) as [[]|]; reflexivity.
      + destruct (ws_readyState r st) as [x|] eqn:Ex; [|reflexivity].
        destruct (is_live x) eqn:El; [|reflexivity].
        assert (Hc : socket st = Some r).
        { apply (tracked_live st Htr). unfold is_live_ref. now rewrite Ex. }
        rewrite Es in Hc. injection Hc as ->. now rewrite Nat.eqb_refl in Er.
    - destruct (ws_readyState r st) as [x|] eqn:Ex; [|reflexivity].
      destruct (is_live x) eqn:El; [|reflexivity].
      assert (Hc : socket st = Some r).
      { apply (tracked_live st Htr). unfold is_live_ref. now rewrite Ex. }
      congruence. }
  split; [|split; [now apply no_live_refs | exact D7]].
  split.
  - intros ref H. now rewrite Hdead in H.
  - intros ref H. congruence.
  - now left.
Qed.

Lemma tracked_connect (env : Env) (u : UserInfo) (st : State) :
  tracked st -> live_refs st = [] ->
  let st' := snd (connect env u st) in
  tracked st'
  /\ live_refs st'
     = (if accepts env (getWebSocketUrl env (customServerUrl st))
        then [length (sockets st)] else [])
  /\ timers st' = [].
Proof.
  intros Htr Hdead. cbv zeta. rewrite no_live_refs in Hdead.
  destruct (connect_spec env u st) as (C1 & C2 & C3 & C4 & C5 & C6 & _).
  cbv zeta in *.
  assert (Ht : timers (snd (connect env u st)) = []).
  { rewrite C5. apply clear_reconnectTimer_tracked, tracked_timer_weaken, Htr. }
  destruct (accepts env _); cbn [andb] in C6.
  - assert (Hlive : forall r, is_live_ref (snd (connect env u st)) r = true
                              <-> r = length (sockets st)).
    { intros r. unfold is_live_ref. rewrite C6.
      destruct (Nat.eqb r (length (sockets st))) eqn:E.
      - apply Nat.eqb_eq in E. now split.
      - apply Nat.eqb_neq in E. specialize (Hdead r). unfold is_live_ref in Hdead.
        rewrite Hdead. split; [discriminate | contradiction]. }
    split; [|split; [|exact Ht]].
    + split.
      * intros ref H. apply Hlive in H. now rewrite C1, H.
      * intros ref H. rewrite C1 in H. injection H as <-.
        rewrite C6, Nat.eqb_refl. discriminate.
      * now left.
    + apply NoDup_singleton.
      * apply NoDup_live_refs.
      * apply In_live_refs. now apply Hlive.
      * intros x Hx. apply In_live_refs in Hx. now apply Hlive.
  - assert (Hlive : forall r, is_live_ref (snd (connect env u st)) r = false).
    { intros r. unfold is_live_ref. rewrite C6. apply Hdead. }
    split; [|split; [now apply no_live_refs | exact Ht]].
    split.
    + intros ref H. now rewrite Hlive in H.
    + intros ref H. rewrite C1 in H. rewrite C6. now apply (tracked_held st Htr).
    + now left.
Qed.

Lemma same_core_set_customServerUrl_tracked (v : option string) (st : State) :
  tracked st -> tracked (set_customServerUrl v st).
Proof. intros [Hl Hh Ht]. split; [exact Hl | exact Hh | exact Ht]. Qed.

(** [joinInstance] is [disconnect], the override, then [connect] with the new
    identity; it returns [true] when [connect] returns. *)
Lemma joinInstance_unfold
      (env : Env) (i : string) (a : option string) (u n : string)
      (s : option string) (st : State) :
  joinInstance env i a u n s st
  = (match fst (connect env (identity_of i a u n)
                  (set_customServerUrl (JsString.or_else s None) (disconnect st))) with
     | Normal _ => Normal true
     | Thrown e => Thrown e
     end,
     snd (connect env (identity_of i a u n)
            (set_customServerUrl (JsString.or_else s None) (disconnect st)))).
Proof.
  unfold joinInstance, identity_of, bind, modify, ret.
  destruct (JsString.or_else a None);
    match goal with
    | |- context [connect env ?x ?y] => destruct (connect env x y) as [[[]|e] st']
    end; reflexivity.
Qed.

Lemma tracked_joinInstance
      (env : Env) (i : string) (a : option string) (u n : string)
      (s : option string) (st : State) :
  tracked st ->
  let st' := snd (joinInstance env i a u n s st) in
  tracked st'
  /\ live_refs st'
     = (if accepts env (getWebSocketUrl env (JsString.or_else s None))
        then [length (sockets st)] else [])
  /\ timers st' = [].
Proof.
  intros Htr. cbv zeta. rewrite joinInstance_unfold. cbn [snd].
  destruct (tracked_disconnect st Htr) as (T1 & T2 & T3).
  destruct (disconnect_spec st) as (_ & _ & _ & _ & D5 & _).
  match goal with
  | |- context [connect env ?x ?y] =>
      destruct (tracked_connect env x y) as (K1 & K2 & K3)
  end.
  - now apply same_core_set_customServerUrl_tracked.
  - exact T2.
  - cbv zeta in *. cbn [sockets customServerUrl set_customServerUrl] in K2.
    rewrite D5 in K2. auto.
Qed.

Lemma tracked_open (env : Env) (ref : nat) (st : State) :
  tracked st -> ws_readyState ref st = Some CONNECTING ->
  tracked (deliver (onopen env) (set_readyState ref OPEN st)).
Proof.
  intros [Hl Hh Ht] Hc.
  apply (tracked_same_core (set_readyState ref OPEN st)); [apply same_core_onopen|].
  split; [| |exact Ht].
  - intros r. unfold is_live_ref. rewrite readyState_set_readyState.
    destruct (Nat.eqb r ref) eqn:E.
    + apply Nat.eqb_eq in E. subst r. intros _. apply Hl.
      unfold is_live_ref. now rewrite Hc.
    + apply Hl.
  - intros r Hs. rewrite readyState_set_readyState.
    destruct (Nat.eqb r ref) eqn:E.
    + apply Nat.eqb_eq in E. subst r. now rewrite Hc.
    + now apply Hh.
Qed.

Lemma tracked_close (env : Env) (ref : nat) (st : State) :
  tracked st -> socket st = Some ref ->
  tracked (deliver (onclose env) (set_readyState ref CLOSED st)).
Proof.
  intros [Hl Hh Ht] Hs.
  assert (Hnone : timers st = []).
  { destruct Ht as [H|(t & _ & _ & _ & H)]; [exact H|congruence]. }
  assert (Hdead : forall r, is_live_ref (set_readyState ref CLOSED st) r = false).
  { intros r. unfold is_live_ref. rewrite readyState_set_readyState.
    destruct (Nat.eqb r ref) eqn:E.
    - now destruct (ws_readyState r st).
    - destruct (ws_readyState r st) as [x|] eqn:Ex; [|reflexivity].
      destruct (is_live x) eqn:Elive; [|reflexivity].
      assert (Hc : socket st = Some r).
      { apply Hl. unfold is_live_ref. now rewrite Ex. }
      rewrite Hs in Hc. injection Hc as ->. now rewrite Nat.eqb_refl in E. }
  rewrite onclose_spec. cbv zeta.
  destruct (first_raise env _ _).
  - split; [|discriminate|now left]. intros r H.
    change (is_live_ref (set_readyState ref CLOSED st) r = true) in H.
    now rewrite Hdead in H.
  - destruct (userInfo (set_readyState ref CLOSED st)).
    + split.
      * intros r H.
        change (is_live_ref (set_readyState ref CLOSED st) r = true) in H.
        now rewrite Hdead in H.
      * discriminate.
      * right. exists (mkTimer (S (timer_count st)) (now st + reconnect_delay)).
        unfold setTimeout, record_calls, set_readyState. proj. rewrite Hnone.
        repeat split. discriminate.
    + split; [|discriminate|now left]. intros r H.
      change (is_live_ref (set_readyState ref CLOSED st) r = true) in H.
      now rewrite Hdead in H.
Qed.

(** The reconnect closure is [connect] with the stored identity, when there
    is one. *)
Lemma reconnect_tick_unfold (env : Env) (st : State) :
  deliver (reconnect_tick env) st
  = match userInfo st with
    | Some u => snd (connect env u (clientLog info "Attempting to reconnect" st))
    | None => clientLog info "Attempting to reconnect" st
    end.
Proof.
  unfold deliver, reconnect_tick, bind, modify, gets. proj.
  now destruct (userInfo st).
Qed.

Lemma tracked_timer_fire (env : Env) (h : nat) (t : Timer) (st : State) :
  tracked st ->
  find (fun t => Nat.eqb (handle t) h) (timers st) = Some t ->
  tracked (deliver (reconnect_tick env) (clearTimeout h st)).
Proof.
  intros [Hl Hh Ht] Hfind.
  destruct Ht as [H|(t0 & H & Hr & Hnz & Hs)]; [now rewrite H in Hfind|].
  rewrite H in Hfind. cbn in Hfind.
  destruct (Nat.eqb (handle t0) h) eqn:Eh; [|discriminate].
  assert (Hcleared : timers (clearTimeout h st) = []).
  { unfold clearTimeout. proj. rewrite H. cbn. now rewrite Eh. }
  assert (Htr : tracked (clientLog info "Attempting to reconnect" (clearTimeout h st))).
  { split; [exact Hl | exact Hh | now left]. }
  assert (Hdead : live_refs (clientLog info "Attempting to reconnect" (clearTimeout h st))
                  = []).
  { apply no_live_refs. intros r.
    destruct (is_live_ref _ r) eqn:E; [|reflexivity].
    apply Hl in E. congruence. }
  rewrite reconnect_tick_unfold.
  destruct (userInfo _) as [u|]; [|exact Htr].
  now apply tracked_connect.
Qed.

Lemma tracked_step (env : Env) (e : Event) (st st' : State) :
  tracked st -> admitted e st -> step env e st = Some st' -> tracked st'.
Proof.
  intros Htr Hadm Hstep. destruct e; cbn [step admitted] in *.
  - injection Hstep as <-. now apply tracked_connect.
  - injection Hstep as <-. now apply tracked_disconnect.
  - injection Hstep as <-. now apply (tracked_joinInstance env).
  - injection Hstep as <-. destruct Htr. now split.
  - injection Hstep as <-. destruct Htr. now split.
  - injection Hstep as <-.
    now apply (tracked_same_core st); [apply same_core_send|].
  - destruct (ws_readyState ref st) as [[]|] eqn:E; try discriminate.
    injection Hstep as <-. now apply tracked_open.
  - destruct (ws_readyState ref st) as [[]|] eqn:E; try discriminate.
    injection Hstep as <-.
    now apply (tracked_same_core st); [apply same_core_onmessage|].
  - destruct (ws_readyState ref st) as [[]|] eqn:E; try discriminate;
      injection Hstep as <-;
      now apply (tracked_same_core st); [apply same_core_onerror|].
  - destruct (ws_readyState ref st) as [[]|] eqn:E; try discriminate;
      injection Hstep as <-; now apply tracked_close.
  - destruct (find _ (timers st)) as [t|] eqn:Ef; [|discriminate].
    destruct (due t <=? now st)%Z; [|discriminate].
    injection Hstep as <-. now apply (tracked_timer_fire env h t).
  - destruct (0 <=? dt)%Z; [|discriminate].
    injection Hstep as <-. destruct Htr. now split.
Qed.

Lemma tracked_init : tracked init.
Proof. split; [intros [|r]; discriminate | discriminate | now left]. Qed.

Lemma reachable_tracked (env : Env) (st : State) : reachable env st -> tracked st.
Proof.
  induction 1 as [|e st st' _ IH Hadm Hstep]; [apply tracked_init|].
  now apply (tracked_step env e st).
Qed.

Lemma tracked_at_most_one (st : State) :
  tracked st ->
  length (live_refs st) <= 1
  /\ length (timers st) <= 1
  /\ (forall ref, In ref (live_refs st) -> socket st = Some ref)
  /\ (forall t, In t (timers st) -> reconnectTimer st = Some (handle t)).
Proof.
  intros [Hl _ Ht].
  assert (Hin : forall ref, In ref (live_refs st) -> socket st = Some ref).
  { intros ref H. now apply Hl, In_live_refs. }
  repeat split.
  - apply NoDup_all_equal_length; [apply NoDup_live_refs|].
    intros x y Hx Hy. apply Hin in Hx, Hy. congruence.
  - destruct Ht as [H|(t & H & _)]; rewrite H; cbn; lia.
  - exact Hin.
  - intros t Hin'. destruct Ht as [H|(t0 & H & Hr & _)]; rewrite H in Hin'.
    + destruct Hin'.
    + destruct Hin' as [<-|[]]. exact Hr.
Qed.

(** C1, as stated, fails: two calls of [connect] in a row leave two channels
    connecting; the second call has not closed the channel of the first. *)
Lemma connect_twice_leaves_two_channels :
  let result := run local_env [Call_connect alice; Call_connect alice] init in
  option_map live_refs result = Some [0; 1]
  /\ option_map (ws_readyState 0) result = Some (Some CONNECTING)
  /\ option_map (ws_readyState 1) result = Some (Some CONNECTING).
Proof. repeat split; vm_compute; reflexivity. Qed.

(** C1, amended: in every execution made of [joinInstance] and [disconnect]
    calls, [connect] calls issued while no channel is live, subscriptions,
    sends, the callbacks of the held channel and due timeouts, at most one
    channel is live, and it is the one the manager holds; at most one
    reconnection timeout is pending, and it is the one the manager holds.
    [joinInstance] closes the held channel before it opens the new one, which
    it does when the constructor accepts the address; [connect] cancels the
    held timeout and closes nothing. *)
Theorem tracked_channel_invariant (env : Env) (st : State) (Hreach : reachable env st) :
  length (live_refs st) <= 1
  /\ length (timers st) <= 1
  /\ (forall ref, In ref (live_refs st) -> socket st = Some ref)
  /\ (forall t, In t (timers st) -> reconnectTimer st = Some (handle t))
  /\ (forall i a u n s,
        let st' := snd (joinInstance env i a u n s st) in
        live_refs st'
        = (if accepts env (getWebSocketUrl env (JsString.or_else s None))
           then [length (sockets st)] else [])
        /\ timers st' = []
        /\ forall ref, socket st = Some ref -> is_live_ref st' ref = false)
  /\ (forall u,
        let st' := snd (connect env u st) in
        timers st' = []
        /\ forall r, r < length (sockets st) ->
                     ws_readyState r st' = ws_readyState r st).
Proof.
  pose proof (reachable_tracked env st Hreach) as Htr.
  destruct (tracked_at_most_one st Htr) as (A1 & A2 & A3 & A4).
  repeat split; try assumption.
  - now apply tracked_joinInstance.
  - now apply tracked_joinInstance.
  - intros ref Hs.
    destruct (tracked_joinInstance env i a u n s st Htr) as (_ & J2 & _).
    destruct (is_live_ref _ ref) eqn:E; [|reflexivity].
    apply In_live_refs in E. cbv zeta in J2. rewrite J2 in E.
    destruct (accepts env _); [|destruct E].
    destruct E as [E|[]]. subst ref.
    exfalso. apply (tracked_held st Htr _ Hs).
    now apply readyState_out_of_range.
  - destruct (connect_spec env u st) as (_ & _ & _ & _ & C5 & _).
    cbv zeta in C5.
    rewrite C5. apply clear_reconnectTimer_tracked, tracked_timer_weaken, Htr.
  - intros r Hr. destruct (connect_spec env u st) as (_ & _ & _ & _ & _ & C6 & _).
    cbv zeta in C6.
    rewrite C6. destruct (Nat.eqb r (length (sockets st))) eqn:E;
      [|now rewrite Bool.andb_false_r].
    apply Nat.eqb_eq in E. lia.
Qed.

Lemma reachable_run (env : Env) (es : list Event) (st st' : State) :
  reachable env st -> admitted_run env es st -> run env es st = Some st' ->
  reachable env st'.
Proof.
  revert st. induction es as [|e rest IH]; intros st Hst Hadm Hrun; cbn in *.
  - now injection Hrun as <-.
  - destruct Hadm as [Ha Hrest].
    destruct (step env e st) as [st1|] eqn:Es; [|discriminate].
    apply (IH st1); [|exact Hrest|exact Hrun].
    now apply (reachable_step env e st).
Qed.

Lemma session_reachable : reachable local_env after_session.
Proof.
  apply (reachable_run local_env session init).
  - apply reachable_init.
  - vm_compute. repeat split.
  - vm_compute. reflexivity.
Qed.

Example session_channels :
  live_refs after_session = [2]
  /\ map readyState (sockets after_session) = [CLOSED; CLOSING; CONNECTING]
  /\ map url (sockets after_session)
     = ["ws://localhost:5173/ws"; "ws://localhost:5173/ws";
        "ws://custom.example.com/ws"]%string
  /\ timers after_session = [].
Proof. repeat split; vm_compute; reflexivity. Qed.

Lemma tracked_channel_invariant_witness :
  length (live_refs after_session) <= 1 /\ length (timers after_session) <= 1.
Proof.
  pose proof (tracked_channel_invariant local_env after_session session_reachable) as H.
  split; apply H.
Defined.

(** *** Joining an instance *)

(** [joinInstance], field by field, on both paths of the constructor. *)
Lemma joinInstance_spec
      (env : Env) (i : string) (a : option string) (u n : string)
      (s : option string) (st : State) :
  let st' := snd (joinInstance env i a u n s st) in
  let wsUrl := getWebSocketUrl env (JsString.or_else s None) in
  socket st' = (if accepts env wsUrl then Some (length (sockets st)) else None)
  /\ sockets st'
     = sockets (disconnect st)
         ++ (if accepts env wsUrl then [mkWebSocket wsUrl CONNECTING []] else [])
  /\ userInfo st' = Some (identity_of i a u n)
  /\ customServerUrl st' = JsString.or_else s None
  /\ connected st' = false
  /\ (forall r, r < length (sockets st) ->
        ws_readyState r st' = ws_readyState r (disconnect st))
  /\ fst (joinInstance env i a u n s st)
     = match WebSocket_throws env wsUrl with
       | Some e => Thrown e
       | None => Normal true
       end.
Proof.
  cbv zeta. rewrite joinInstance_unfold. cbn [fst snd].
  destruct (disconnect_spec st) as (D1 & D2 & _ & _ & D5 & _).
  match goal with
  | |- context [connect env ?x ?y] =>
      destruct (connect_spec env x y) as (C1 & C2 & C3 & C4 & C5 & C6 & C7 & C8)
  end.
  cbv zeta in *.
  cbn [socket sockets connected customServerUrl set_customServerUrl] in *.
  rewrite D5 in *. rewrite D1 in C1. rewrite D2 in C8.
  repeat split; try assumption.
  - intros r Hr. rewrite C6.
    destruct (Nat.eqb r (length (sockets st))) eqn:E;
      [|now rewrite Bool.andb_false_r].
    apply Nat.eqb_eq in E. lia.
  - rewrite C7. now destruct (WebSocket_throws env _).
Qed.






(** C10, as stated, fails: for an address the constructor rejects,
    [joinInstance] raises instead of returning [true]. *)
Lemma joinInstance_rejected_address_raises :
  fst (joinInstance strict_env "inst-1" None "u1" "Alice" (Some "http://bad host") init)
  = Thrown SyntaxError
  /\ getWebSocketUrl strict_env (Some "http://bad host") = "ws://bad host/ws"%string
  /\ fst (joinInstance strict_env "inst-1" None "u1" "Alice" (Some "http://bad host") init)
     <> Normal true.
Proof. repeat split. discriminate. Qed.

(** C10, amended: [joinInstance] never returns [false]. It returns [true]
    exactly when the constructor accepts the resolved address, whatever the
    arguments and whatever becomes of the connection: at that time the new
    socket is only connecting and the manager is not connected. When the
    constructor rejects the address, its exception leaves [joinInstance]:
    nothing is returned, the manager has disconnected and stored the override
    and the identity, and it holds no socket. *)
Theorem joinInstance_true_or_raises
        (env : Env) (instanceId : string) (activityId : option string)
        (userId username : string) (serverUrl : option string) (st : State) :
  let call := joinInstance env instanceId activityId userId username serverUrl st in
  let wsUrl := getWebSocketUrl env (JsString.or_else serverUrl None) in
  fst call = match WebSocket_throws env wsUrl with
             | None => Normal true
             | Some e => Thrown e
             end
  /\ fst call <> Normal false
  /\ connected (snd call) = false
  /\ customServerUrl (snd call) = JsString.or_else serverUrl None
  /\ userInfo (snd call)
     = Some (mkUserInfo userId username (Some instanceId)
               (JsString.or_else activityId None))
  /\ (if accepts env wsUrl
      then socket (snd call) = Some (length (sockets st))
           /\ ws_view (length (sockets st)) (snd call) = Some (wsUrl, CONNECTING)
      else socket (snd call) = None
           /\ sockets (snd call) = sockets (disconnect st)).
Proof.
  cbv zeta.
  destruct (joinInstance_spec env instanceId activityId userId username serverUrl st)
    as (J1 & J2 & J3 & J4 & J5 & J6 & J7).
  cbv zeta in *.
  destruct (disconnect_spec st) as (_ & _ & _ & _ & D5 & _).
  split; [now rewrite J7; destruct (WebSocket_throws env _)|].
  split; [rewrite J7; now destruct (WebSocket_throws env _)|].
  split; [exact J5|]. split; [exact J4|]. split; [exact J3|].
  destruct (accepts env _).
  - split; [exact J1|]. unfold ws_view.
    rewrite J2, nth_error_app2 by lia. now rewrite D5, Nat.sub_diag.
  - split; [exact J1|]. now rewrite J2, app_nil_r.
Qed.

(** *** Reconnection *)

(** With no timeout pending, the passing of time opens no channel. *)
Lemma no_timer_no_attempt (env : Env) (es : list Event) :
  forall st st',
    timers st = [] -> Forall timer_event es -> run env es st = Some st' ->
    sockets st' = sockets st /\ timers st' = [].
Proof.
  induction es as [|e rest IH]; intros st st' Ht Hes Hrun.
  - cbn in Hrun. injection Hrun as <-. now split.
  - inversion Hes as [|? ? He Hrest]; subst.
    destruct e; try contradiction; cbn [run step] in Hrun.
    + rewrite Ht in Hrun. discriminate.
    + destruct (0 <=? dt)%Z; [|discriminate].
      now apply (IH (set_now (now st + dt)%Z st)).
Qed.

Lemma close_delivered (env : Env) (ref : nat) (st : State) :
  is_live_ref st ref = true ->
  step env (Socket_close ref) st
  = Some (deliver (onclose env) (set_readyState ref CLOSED st)).
Proof.
  unfold is_live_ref. cbn [step].
  destruct (ws_readyState ref st) as [[]|]; try discriminate; reflexivity.
Qed.

(** The close event with an identity stored and quiet subscribers: one
    timeout, due [reconnect_delay] later, held in [reconnectTimer]. *)
Lemma close_schedules (env : Env) (ref : nat) (u : UserInfo) (st : State) :
  userInfo st = Some u ->
  first_raise env (onDisconnectHandlers (subscribers st)) [] = None ->
  let st1 := deliver (onclose env) (set_readyState ref CLOSED st) in
  timers st1 = timers st ++ [mkTimer (S (timer_count st)) (now st + reconnect_delay)]
  /\ reconnectTimer st1 = Some (S (timer_count st))
  /\ userInfo st1 = Some u
  /\ socket st1 = None
  /\ now st1 = now st
  /\ customServerUrl st1 = customServerUrl st
  /\ sockets st1 = update_socket ref (with_readyState CLOSED) (sockets st).
Proof.
  intros Hu Hq. cbv zeta. rewrite onclose_spec. cbv zeta.
  change (onDisconnectHandlers (subscribers (set_readyState ref CLOSED st)))
    with (onDisconnectHandlers (subscribers st)).
  change (userInfo (set_readyState ref CLOSED st)) with (userInfo st).
  rewrite Hq, Hu.
  unfold setTimeout, record_calls, set_readyState. proj. repeat split. exact Hu.
Qed.

(** A due timeout of a tracked manager with an identity: the reconnection
    opens one channel, which becomes the held one, when the constructor
    accepts the address. *)
Lemma timer_fire_spec (env : Env) (h : nat) (t : Timer) (u : UserInfo) (st : State) :
  tracked st ->
  find (fun t => Nat.eqb (handle t) h) (timers st) = Some t ->
  userInfo st = Some u ->
  let st' := deliver (reconnect_tick env) (clearTimeout h st) in
  let wsUrl := getWebSocketUrl env (customServerUrl st) in
  live_refs st' = (if accepts env wsUrl then [length (sockets st)] else [])
  /\ timers st' = []
  /\ userInfo st' = Some u
  /\ sockets st'
     = sockets st ++ (if accepts env wsUrl then [mkWebSocket wsUrl CONNECTING []] else []).
Proof.
  intros [Hl Hh Ht] Hfind Hu. cbv zeta.
  destruct Ht as [H|(t0 & H & Hr & Hnz & Hs)]; [now rewrite H in Hfind|].
  rewrite H in Hfind. cbn in Hfind.
  destruct (Nat.eqb (handle t0) h) eqn:Eh; [|discriminate].
  set (st0 := clientLog info "Attempting to reconnect" (clearTimeout h st)).
  assert (Htr : tracked st0).
  { split; [exact Hl | exact Hh |]. left.
    unfold st0, clearTimeout. proj. rewrite H. cbn. now rewrite Eh. }
  assert (Hdead : live_refs st0 = []).
  { apply no_live_refs. intros r.
    destruct (is_live_ref st0 r) eqn:E; [|reflexivity].
    apply Hl in E. congruence. }
  rewrite reconnect_tick_unfold. fold st0.
  change (userInfo (clearTimeout h st)) with (userInfo st). rewrite Hu.
  destruct (tracked_connect env u st0 Htr Hdead) as (_ & K2 & K3).
  destruct (connect_spec env u st0) as (_ & C2 & C3 & _).
  cbv zeta in *.
  change (sockets st0) with (sockets st) in *.
  change (customServerUrl st0) with (customServerUrl st) in *.
  repeat split; assumption.
Qed.

(** C5, as stated, fails: with a subscriber of "disconnect" that raises, the
    close event of the held channel schedules no reconnection although an
    identity is stored. *)
Lemma raising_disconnect_subscriber_blocks_reconnect :
  let result :=
    run faulty_env
        [Call_on disconnect_ev 1; Call_connect alice; Socket_open 0; Socket_close 0]
        init in
  option_map userInfo result = Some (Some alice)
  /\ option_map timers result = Some []
  /\ option_map reconnectTimer result = Some None
  /\ option_map live_refs result = Some [].
Proof. repeat split; vm_compute; reflexivity. Qed.

(** C5, amended: when the held, live channel of a manager that tracks its
    channel closes while an identity is stored and the subscribers of
    "disconnect" return, exactly one timeout is scheduled, due 5000 ms later:
    it cannot fire earlier, and when it fires the manager connects again with
    the stored identity, which opens a channel when the constructor accepts
    the address. A [disconnect] before it fires cancels it: no timeout is
    pending and no passing of time opens a channel. A close with no identity
    stored schedules nothing. *)
Theorem reconnect_after_close
        (env : Env) (st : State) (ref : nat) (u : UserInfo)
        (Htr : tracked st)
        (Hlive : is_live_ref st ref = true)
        (Hu : userInfo st = Some u)
        (Hquiet : first_raise env (onDisconnectHandlers (subscribers st)) [] = None) :
  let h := S (timer_count st) in
  let wsUrl := getWebSocketUrl env (customServerUrl st) in
  exists st1,
    step env (Socket_close ref) st = Some st1
    /\ timers st1 = [mkTimer h (now st + 5000)]
    /\ reconnectTimer st1 = Some h
    /\ (forall dt, (0 <= dt < 5000)%Z ->
          run env [Tick dt; Timer_fire h] st1 = None)
    /\ (forall dt, (5000 <= dt)%Z ->
          exists st2,
            run env [Tick dt; Timer_fire h] st1 = Some st2
            /\ userInfo st2 = Some u
            /\ timers st2 = []
            /\ if accepts env wsUrl
               then live_refs st2 = [length (sockets st)]
                    /\ ws_view (length (sockets st)) st2 = Some (wsUrl, CONNECTING)
               else live_refs st2 = [])
    /\ (timers (disconnect st1) = []
        /\ reconnectTimer (disconnect st1) = None
        /\ forall es st3,
             Forall timer_event es -> run env es (disconnect st1) = Some st3 ->
             sockets st3 = sockets (disconnect st1))
    /\ (forall st0 ref0 st0',
          userInfo st0 = None -> step env (Socket_close ref0) st0 = Some st0' ->
          timers st0' = timers st0 /\ reconnectTimer st0' = reconnectTimer st0).
Proof.
  cbv zeta.
  assert (Hs : socket st = Some ref) by (now apply (tracked_live st Htr)).
  assert (Hnone : timers st = []).
  { destruct (tracked_timer st Htr) as [H|(t & _ & _ & _ & H)]; [exact H|congruence]. }
  pose proof (tracked_close env ref st Htr Hs) as Htr1.
  destruct (close_schedules env ref u st Hu Hquiet)
    as (S1 & S2 & S3 & S4 & S5 & S6 & S7).
  cbv zeta in *. rewrite Hnone in S1. cbn [app] in S1.
  set (st1 := deliver (onclose env) (set_readyState ref CLOSED st)) in *.
  exists st1.
  split; [now apply close_delivered|].
  split; [exact S1|]. split; [exact S2|].
  split; [|split; [|split]].
  - intros dt [Hdt0 Hdt]. cbn [run step].
    replace (0 <=? dt)%Z with true by (symmetry; now apply Z.leb_le).
    proj. rewrite S1. cbn [find handle]. rewrite Nat.eqb_refl. cbn [due].
    rewrite S5. unfold reconnect_delay.
    replace (now st + 5000 <=? now st + dt)%Z with false
      by (symmetry; apply Z.leb_gt; lia).
    reflexivity.
  - intros dt Hdt.
    exists (deliver (reconnect_tick env)
              (clearTimeout (S (timer_count st)) (set_now (now st1 + dt)%Z st1))).
    split.
    + cbn [run step].
      replace (0 <=? dt)%Z with true by (symmetry; apply Z.leb_le; lia).
      proj. rewrite S1. cbn [find handle]. rewrite Nat.eqb_refl. cbn [due].
      unfold reconnect_delay.
      replace (now st + 5000 <=? now st1 + dt)%Z with true
        by (symmetry; apply Z.leb_le; rewrite S5; lia).
      reflexivity.
    + assert (Htr2 : tracked (set_now (now st1 + dt)%Z st1)).
      { destruct Htr1 as [A B C]. now split. }
      destruct (timer_fire_spec env (S (timer_count st))
                  (mkTimer (S (timer_count st)) (now st + 5000)) u
                  (set_now (now st1 + dt)%Z st1) Htr2) as (F1 & F2 & F3 & F4).
      * proj. rewrite S1. cbn [find handle]. now rewrite Nat.eqb_refl.
      * exact S3.
      * cbv zeta in F1, F4.
        cbn [sockets set_now customServerUrl] in F1, F4.
        rewrite S7, length_update_socket in F1. rewrite S7 in F4. rewrite S6 in F1, F4.
        split; [exact F3|]. split; [exact F2|].
        destruct (accepts env (getWebSocketUrl env (customServerUrl st)));
          [|exact F1].
        split; [exact F1|]. unfold ws_view.
        rewrite F4, nth_error_app2 by (rewrite length_update_socket; lia).
        now rewrite length_update_socket, Nat.sub_diag.
  - destruct (tracked_disconnect st1 Htr1) as (_ & _ & D3).
    split; [exact D3|]. split.
    + unfold disconnect. rewrite S4. cbn [close_if_live].
      unfold clear_reconnectTimer. rewrite S2. reflexivity.
    + intros es st3 Hes Hrun.
      now destruct (no_timer_no_attempt env es _ _ D3 Hes Hrun).
  - intros st0 ref0 st0' Hu0 Hstep. cbn [step] in Hstep.
    assert (Hst0 : st0' = deliver (onclose env) (set_readyState ref0 CLOSED st0)).
    { destruct (ws_readyState ref0 st0) as [[]|]; try discriminate;
        now injection Hstep as <-. }
    subst st0'. rewrite onclose_spec. cbv zeta.
    change (userInfo (set_readyState ref0 CLOSED st0)) with (userInfo st0).
    rewrite Hu0.
    destruct (first_raise env
                (onDisconnectHandlers (subscribers (set_readyState ref0 CLOSED st0))) []);
      split; reflexivity.
Qed.

Lemma connected_state_tracked : tracked connected_state.
Proof.
  apply (reachable_tracked local_env).
  apply (reachable_run local_env [Call_connect alice; Socket_open 0] init).
  - apply reachable_init.
  - vm_compute. repeat split.
  - vm_compute. reflexivity.
Qed.

Lemma reconnect_after_close_witness :
  exists st1,
    step local_env (Socket_close 0) connected_state = Some st1
    /\ timers st1 = [mkTimer 1 5000]
    /\ run local_env [Tick 4999; Timer_fire 1] st1 = None
    /\ timers (disconnect st1) = [].
Proof.
  destruct (reconnect_after_close local_env connected_state 0 alice
              connected_state_tracked eq_refl eq_refl eq_refl)
    as (st1 & H1 & H2 & _ & H4 & _ & (H6 & _) & _).
  exists st1. split; [exact H1|]. split; [exact H2|].
  split; [apply H4; lia | exact H6].
Defined.

(** *** Explicit disconnect *)

(** What [disconnect] does do: the held channel, when live, is closing; the
    manager holds nothing and reports not connected; the held timeout is
    cancelled. The stored identity stays. *)
Lemma disconnect_effect (st : State) :
  tracked st ->
  socket (disconnect st) = None
  /\ connected (disconnect st) = false
  /\ live_refs (disconnect st) = []
  /\ timers (disconnect st) = []
  /\ userInfo (disconnect st) = userInfo st.
Proof.
  intros Htr.
  destruct (disconnect_spec st) as (D1 & D2 & D3 & _).
  destruct (tracked_disconnect st Htr) as (_ & T2 & T3).
  now repeat split.
Qed.

(** C2 on the code: [disconnect] never clears the stored identity. After
    connect, open, [disconnect], the close event of the channel that
    [disconnect] closed finds the identity, schedules the timeout, and 5000 ms
    later the manager opens a new channel. The same close event after a second
    [joinInstance] drops the reference to the new channel and leads to two
    live channels. *)
Theorem disconnect_keeps_identity_and_reconnects :
  (forall st, userInfo (disconnect st) = userInfo st)
  /\ option_map timers
       (run local_env
            [Call_connect alice; Socket_open 0; Call_disconnect; Socket_close 0] init)
     = Some [mkTimer 1 5000]
  /\ option_map live_refs
       (run local_env
            [Call_connect alice; Socket_open 0; Call_disconnect; Socket_close 0;
             Tick 5000; Timer_fire 1] init)
     = Some [1]
  /\ option_map live_refs
       (run local_env
            [Call_joinInstance "inst-1" None "u1" "Alice" None; Socket_open 0;
             Call_joinInstance "inst-2" None "u1" "Alice" None; Socket_close 0;
             Socket_open 1; Tick 5000; Timer_fire 1] init)
     = Some [1; 2].
Proof.
  split; [intros st; apply disconnect_spec|].
  repeat split; vm_compute; reflexivity.
Qed.

End ManagerSpec.

(** ** The connection manager: sending, subscriptions, callbacks *)

Module ManagerExtra.

Import WebSocketClient ManagerSpec.

Local Open Scope list_scope.

Lemma same_channels_refl (st : State) : same_channels st st.
Proof. repeat split. Qed.

Lemma same_channels_trans (a b c : State) :
  same_channels a b -> same_channels b c -> same_channels a c.
Proof.
  intros (H1 & H2 & H3 & H4 & H5 & H6 & H7 & H8) (K1 & K2 & K3 & K4 & K5 & K6 & K7 & K8).
  repeat split; try congruence.
Qed.

Lemma same_channels_clientLog (lvl : Level) (msg : string) (st : State) :
  same_channels st (clientLog lvl msg st).
Proof. repeat split. Qed.

Lemma same_channels_record_calls (hs : list Handler) (args : list JSValue) (st : State) :
  same_channels st (record_calls hs args st).
Proof. repeat split. Qed.

Lemma ws_view_ws_send (ref r : nat) (fr : JSValue) (st : State) :
  ws_view r (ws_send ref fr st) = ws_view r st.
Proof.
  unfold ws_view, ws_send. proj. rewrite nth_error_update_socket.
  destruct (Nat.eqb r ref); [|reflexivity].
  now destruct (nth_error (sockets st) r).
Qed.

Lemma same_channels_send (ty : string) (data : list (string * JSValue)) (st : State) :
  same_channels st (snd (send ty data st)).
Proof.
  unfold send.
  destruct (socket st) as [ref|]; [|repeat split].
  destruct (ws_readyState ref st) as [[]|]; try (repeat split).
  intros r. cbn [snd]. now rewrite ws_view_ws_send.
Qed.

Lemma same_channels_publish (env : Env) (k : EventKind) (args : list JSValue) (st : State) :
  same_channels st (snd (publish env k args st)).
Proof. rewrite publish_spec. apply same_channels_record_calls. Qed.

Lemma same_channels_onerror (env : Env) (st : State) :
  same_channels st (deliver (onerror env) st).
Proof.
  unfold deliver, onerror, bind, modify, gets.
  eapply same_channels_trans; [|apply same_channels_publish]. repeat split.
Qed.

(** X1: [send] answers [true] exactly when the held socket is open. Then the
    frame is appended to the outbox of the held socket and to no other;
    otherwise no outbox changes (nothing is queued) and one error line is
    logged. In both cases the module variables, the timeouts and the states
    of the sockets stay as they are. *)
Theorem send_only_on_open_channel
        (ty : string) (data : list (string * JSValue)) (st : State) :
  let st' := snd (send ty data st) in
  fst (send ty data st) = held_open st
  /\ same_channels st st'
  /\ (forall r,
        ws_outbox r st'
        = if held_open st && match socket st with
                             | Some ref => Nat.eqb r ref
                             | None => false
                             end
          then option_map (fun o => o ++ [frame ty data]) (ws_outbox r st)
          else ws_outbox r st)
  /\ console st'
     = console st
         ++ [if held_open st then (info, ("Sending " ++ ty ++ " message")%string)
             else (error, "Cannot send message - not connected"%string)].
Proof.
  cbv zeta. split; [|split; [apply same_channels_send|]].
  - unfold send, held_open.
    destruct (socket st) as [ref|]; [|reflexivity].
    now destruct (ws_readyState ref st) as [[]|].
  - unfold send, held_open.
    destruct (socket st) as [ref|]; [|split; reflexivity].
    destruct (ws_readyState ref st) as [[]|] eqn:E; try (split; reflexivity).
    split; [|reflexivity].
    intros r. cbn [snd andb]. unfold ws_outbox, ws_send. proj.
    rewrite nth_error_update_socket.
    destruct (Nat.eqb r ref); [|reflexivity].
    now destruct (nth_error (sockets st) r).
Qed.

Lemma lookup_filter_other (k k0 : string) (fs : list (string * JSValue)) :
  k <> k0 ->
  Js.lookup k (filter (fun kv => negb (String.eqb (fst kv) k0)) fs) = Js.lookup k fs.
Proof.
  intros Hk. induction fs as [|[k1 v] fs IH]; [reflexivity|]. cbn.
  destruct (String.eqb_spec k1 k0) as [->|Hne]; cbn.
  - destruct (String.eqb_spec k0 k) as [->|_]; [contradiction | exact IH].
  - now rewrite IH.
Qed.

(** X2: the frame [{ type, ...data }] carries every field of [data] with its
    value; its "type" is the message type unless [data] has a field "type" of
    its own, which then replaces it. *)
Theorem frame_carries_data (ty : string) (data : list (string * JSValue)) (k : string) :
  Js.get (frame ty data) k
  = if String.eqb k "type"
    then match Js.lookup "type" data with
         | Some v => v
         | None => JStr ty
         end
    else Js.get (JObj data) k.
Proof.
  unfold frame. cbn [Js.get Js.lookup].
  destruct (String.eqb_spec k "type") as [->|Hne].
  - cbn. reflexivity.
  - rewrite (proj2 (String.eqb_neq "type" k)) by congruence.
    now rewrite lookup_filter_other.
Qed.

Lemma handlers_of_with_other (k k' : EventKind) (l : list Handler) (s : Subscribers) :
  k' <> k -> handlers_of k' (with_handlers k l s) = handlers_of k' s.
Proof. destruct k, k'; intros H; try reflexivity; contradiction. Qed.

Lemma filter_not_in (h : Handler) (l : list Handler) :
  ~ In h l -> filter (fun x => negb (Nat.eqb x h)) l = l.
Proof.
  induction l as [|x l IH]; [reflexivity|]. cbn. intros H.
  destruct (Nat.eqb_spec x h) as [->|_]; [exfalso; apply H; now left|].
  cbn. rewrite IH; [reflexivity|]. intros Hin. apply H. now right.
Qed.

(** X3: [off] removes every occurrence of the callback from the list of
    its event and keeps the others in order; [off] after [on] gives back the
    list without the callback, so the list itself when the callback was not
    subscribed before; [off] of a callback that is not subscribed changes
    nothing; [on] and [off] leave the lists of the other events alone. *)
Theorem on_off_subscriptions (k k' : EventKind) (h : Handler) (st : State) :
  let hs := handlers_of k (subscribers st) in
  handlers_of k (subscribers (off k h st)) = filter (fun x => negb (Nat.eqb x h)) hs
  /\ ~ In h (handlers_of k (subscribers (off k h st)))
  /\ handlers_of k (subscribers (off k h (on k h st)))
     = filter (fun x => negb (Nat.eqb x h)) hs
  /\ (~ In h hs ->
      handlers_of k (subscribers (off k h (on k h st))) = hs
      /\ handlers_of k (subscribers (off k h st)) = hs)
  /\ (k' <> k ->
      handlers_of k' (subscribers (on k h st)) = handlers_of k' (subscribers st)
      /\ handlers_of k' (subscribers (off k h st)) = handlers_of k' (subscribers st)).
Proof.
  cbv zeta. unfold on, off. proj. rewrite !handlers_of_with.
  assert (Hround : filter (fun x => negb (Nat.eqb x h))
                          (handlers_of k (subscribers st) ++ [h])
                   = filter (fun x => negb (Nat.eqb x h)) (handlers_of k (subscribers st))).
  { rewrite filter_app. cbn. rewrite Nat.eqb_refl. cbn. apply app_nil_r. }
  repeat split.
  - intros Hin. apply filter_In in Hin. destruct Hin as [_ Hne].
    now rewrite Nat.eqb_refl in Hne.
  - exact Hround.
  - rewrite Hround. now apply filter_not_in.
  - now apply filter_not_in.
  - now apply handlers_of_with_other.
  - now apply handlers_of_with_other.
Qed.

(** X4: [disconnect] is idempotent, and in a state that is already
    disconnected (nothing held, not connected, no timeout held) it changes
    nothing at all. *)
Theorem disconnect_idempotent (st : State) :
  disconnect (disconnect st) = disconnect st
  /\ (socket st = None -> connected st = false -> reconnectTimer st = None ->
      disconnect st = st).
Proof.
  split.
  - assert (Hr : reconnectTimer (disconnect st) = None
                 \/ reconnectTimer (disconnect st) = Some 0).
    { unfold disconnect, clear_reconnectTimer.
      destruct (reconnectTimer (close_if_live (socket st) st)) as [[|h]|] eqn:E;
        proj; rewrite ?E; auto. }
    unfold disconnect at 1.
    change (socket (disconnect st)) with (@None nat). cbn [close_if_live].
    unfold clear_reconnectTimer at 1.
    destruct Hr as [Hr|Hr]; rewrite Hr; reflexivity.
  - intros Hs Hc Hr. unfold disconnect, close_if_live, clear_reconnectTimer.
    rewrite Hs, Hr. destruct st. cbn in *. now subst.
Qed.

Lemma same_channels_onmessage (env : Env) (rawData : string) (st : State) :
  same_channels st (deliver (onmessage env rawData) st).
Proof.
  assert (Hpub : forall k args st1, same_channels st st1 ->
            same_channels st (snd (try_catch (publish env k args)
              (fun _ => modify (clientLog error "Error processing message")) st1))).
  { intros k args st1 H. unfold try_catch. rewrite publish_spec.
    destruct (first_raise env _ _); cbn [completion_of modify snd].
    - eapply same_channels_trans; [exact H|].
      eapply same_channels_trans; [apply same_channels_record_calls|].
      apply same_channels_clientLog.
    - eapply same_channels_trans; [exact H|apply same_channels_record_calls]. }
  unfold deliver, onmessage, try_catch, bind, modify in *.
  destruct (JSON_parse env rawData) as [data|]; cbn [ret throw].
  2: { cbn. repeat split. }
  unfold read_type.
  destruct data; cbn [ret throw snd]; try (repeat split; fail);
    repeat match goal with
    | |- context [if ?b then _ else _] => destruct b
    end;
    try (apply (Hpub _ _ (clientLog info "Message received" st)); repeat split);
    try (repeat split; fail).
  all: rewrite publish_spec; destruct (first_raise env _ _); cbn; repeat split.
Qed.

Lemma ws_readyState_view (r : nat) (st : State) :
  ws_readyState r st = option_map snd (ws_view r st).
Proof. unfold ws_readyState, ws_view. now destruct (nth_error (sockets st) r). Qed.

Lemma held_open_same_channels (st st' : State) :
  same_channels st st' -> held_open st' = held_open st.
Proof.
  intros (H1 & _ & _ & _ & _ & _ & _ & H8). unfold held_open. rewrite H1.
  destruct (socket st) as [ref|]; [|reflexivity].
  now rewrite !ws_readyState_view, H8.
Qed.

Lemma connected_same_channels (st st' : State) :
  same_channels st st' -> connected st' = connected st.
Proof. now intros (_ & H2 & _). Qed.

(** [connect] does not touch [connected]; the socket it holds afterwards is
    connecting. *)
Lemma connect_connected (env : Env) (u : UserInfo) (st : State) :
  let st' := snd (connect env u st) in
  connected st' = connected st
  /\ held_open st'
     = (if accepts env (getWebSocketUrl env (customServerUrl st))
        then false else held_open st).
Proof.
  cbv zeta.
  destruct (connect_spec env u st) as (C1 & _ & _ & _ & _ & C6 & _ & C8).
  cbv zeta in *. split; [exact C8|].
  unfold held_open. rewrite C1.
  destruct (accepts env _); cbn [andb] in *.
  - now rewrite C6, Nat.eqb_refl.
  - destruct (socket st) as [ref|]; [|reflexivity]. now rewrite C6.
Qed.

(** [onopen] sets [connected]; beyond that it only sends, logs and notifies. *)
Lemma onopen_connected (env : Env) (st : State) :
  connected (deliver (onopen env) st) = true
  /\ same_channels (set_connected true st) (deliver (onopen env) st).
Proof.
  unfold deliver, onopen, bind, modify, gets. proj.
  destruct (userInfo st) as [u|]; unfold bind; cbn [ret].
  - assert (H : same_channels (set_connected true st)
                  (snd (publish env connect_ev []
                     (snd (send "join" (userInfo_fields u)
                        (clientLog info "Sending join message"
                           (set_connected true
                              (clientLog info "WebSocket connected" st)))))))).
    { eapply same_channels_trans; [|apply same_channels_publish].
      eapply same_channels_trans; [|apply same_channels_send]. repeat split. }
    split; [|exact H]. now rewrite (connected_same_channels _ _ H).
  - assert (H : same_channels (set_connected true st)
                  (snd (publish env connect_ev []
                     (set_connected true (clientLog info "WebSocket connected" st))))).
    { eapply same_channels_trans; [|apply same_channels_publish]. repeat split. }
    split; [|exact H]. now rewrite (connected_same_channels _ _ H).
Qed.

(** The flag and the held socket move together under every admitted task. *)
Lemma connected_step (env : Env) (e : Event) (st st' : State) :
  tracked st -> connected st = held_open st -> admitted e st ->
  step env e st = Some st' -> connected st' = held_open st'.
Proof.
  intros Htr Hinv Hadm Hstep. destruct e; cbn [step admitted] in *.
  - injection Hstep as <-. unfold deliver.
    destruct (connect_connected env user st) as [Hc Hh]. cbv zeta in Hc, Hh.
    rewrite Hc, Hh, Hinv. destruct (accepts env _); [|reflexivity].
    unfold held_open. destruct (socket st) as [ref|]; [|reflexivity].
    destruct (ws_readyState ref st) as [[]|] eqn:E; try reflexivity.
    apply no_live_refs with (r := ref) in Hadm.
    unfold is_live_ref in Hadm. now rewrite E in Hadm.
  - injection Hstep as <-.
    destruct (disconnect_spec st) as (D1 & D2 & _).
    unfold held_open. now rewrite D1, D2.
  - injection Hstep as <-. unfold deliver. rewrite joinInstance_unfold. cbn [snd].
    match goal with
    | |- context [connect env ?x ?y] =>
        destruct (connect_connected env x y) as [Hc Hh]
    end.
    cbv zeta in Hc, Hh. rewrite Hc, Hh.
    destruct (disconnect_spec st) as (D1 & D2 & _).
    cbn [connected set_customServerUrl]. rewrite D2.
    destruct (accepts env _); [reflexivity|].
    unfold held_open. cbn [socket set_customServerUrl]. now rewrite D1.
  - injection Hstep as <-. exact Hinv.
  - injection Hstep as <-. exact Hinv.
  - injection Hstep as <-.
    pose proof (same_channels_send type data st) as H.
    now rewrite (connected_same_channels _ _ H), (held_open_same_channels _ _ H).
  - destruct (ws_readyState ref st) as [[]|] eqn:E; try discriminate.
    injection Hstep as <-.
    destruct (onopen_connected env (set_readyState ref OPEN st)) as [Hc Hs].
    rewrite Hc, (held_open_same_channels _ _ Hs).
    assert (Hheld : socket st = Some ref).
    { apply (tracked_live st Htr). unfold is_live_ref. now rewrite E. }
    unfold held_open. cbn [socket set_connected set_readyState set_sockets].
    rewrite Hheld.
    change (ws_readyState ref (set_connected true (set_readyState ref OPEN st)))
      with (ws_readyState ref (set_readyState ref OPEN st)).
    now rewrite readyState_set_readyState, Nat.eqb_refl, E.
  - destruct (ws_readyState ref st) as [[]|] eqn:E; try discriminate.
    injection Hstep as <-.
    pose proof (same_channels_onmessage env rawData st) as H.
    now rewrite (connected_same_channels _ _ H), (held_open_same_channels _ _ H).
  - assert (Hst : st' = deliver (onerror env) st).
    { destruct (ws_readyState ref st) as [[]|]; try discriminate;
        now injection Hstep as <-. }
    subst st'. pose proof (same_channels_onerror env st) as H.
    now rewrite (connected_same_channels _ _ H), (held_open_same_channels _ _ H).
  - assert (Hst : st' = deliver (onclose env) (set_readyState ref CLOSED st)).
    { destruct (ws_readyState ref st) as [[]|]; try discriminate;
        now injection Hstep as <-. }
    subst st'. rewrite onclose_spec. cbv zeta.
    destruct (first_raise env _ _); [reflexivity|].
    destruct (userInfo (set_readyState ref CLOSED st)); reflexivity.
  - destruct (find _ (timers st)) as [t|] eqn:Ef; [|discriminate].
    destruct (due t <=? now st)%Z; [|discriminate].
    injection Hstep as <-.
    assert (Hs : socket st = None).
    { destruct (tracked_timer st Htr) as [H|(t0 & _ & _ & _ & H)]; [|exact H].
      now rewrite H in Ef. }
    assert (Hc : connected st = false).
    { rewrite Hinv. unfold held_open. now rewrite Hs. }
    assert (Hh0 : forall msg,
               held_open (clientLog info msg (clearTimeout h st)) = false).
    { intros msg. unfold held_open, clearTimeout. proj. now rewrite Hs. }
    rewrite reconnect_tick_unfold.
    destruct (userInfo _) as [u|].
    + match goal with
      | |- context [connect env ?x ?y] =>
          destruct (connect_connected env x y) as [Hc' Hh]
      end.
      cbv zeta in Hc', Hh. rewrite Hc', Hh, Hh0.
      destruct (accepts env _); exact Hc.
    + rewrite Hh0. exact Hc.
  - destruct (0 <=? dt)%Z; [|discriminate].
    injection Hstep as <-. exact Hinv.
Qed.

Lemma reachable_connected (env : Env) (st : State) :
  reachable env st -> connected st = held_open st.
Proof.
  induction 1 as [|e st st' Hreach IH Hadm Hstep]; [reflexivity|].
  apply (connected_step env e st); auto. now apply (reachable_tracked env).
Qed.

(** X5: in every execution where the manager keeps track of its channel,
    [isConnected] is [true] exactly while the held socket is open, and it is
    what [send] and [sendMessage] will answer. *)
Theorem isConnected_iff_held_open (env : Env) (st : State) (Hreach : reachable env st) :
  isConnected st = held_open st
  /\ (forall ty data, fst (send ty data st) = isConnected st)
  /\ (forall msg, fst (sendMessage msg st) = isConnected st).
Proof.
  pose proof (reachable_connected env st Hreach) as H.
  assert (Hsend : forall ty data, fst (send ty data st) = held_open st).
  { intros ty data. unfold send, held_open.
    destruct (socket st) as [ref|]; [|reflexivity].
    now destruct (ws_readyState ref st) as [[]|]. }
  unfold isConnected, sendMessage. rewrite H.
  repeat split; intros; apply Hsend.
Qed.

Lemma isConnected_iff_held_open_witness :
  reachable local_env connected_state
  /\ isConnected connected_state = true
  /\ fst (sendMessage "hello" connected_state) = true.
Proof.
  assert (Hreach : reachable local_env connected_state).
  { apply (reachable_run local_env [Call_connect alice; Socket_open 0] init).
    - apply reachable_init.
    - vm_compute. repeat split.
    - vm_compute. reflexivity. }
  destruct (isConnected_iff_held_open local_env connected_state Hreach)
    as (H1 & _ & H3).
  split; [exact Hreach|].
  split; [rewrite H1; reflexivity | rewrite H3, H1; reflexivity].
Defined.

(** X6: an error event of a socket changes no module variable, no timeout
    and no socket: it neither closes the channel nor schedules a
    reconnection. The error subscribers are called in order, up to the first
    that raises, with a text that depends only on the resolved address. *)
Theorem error_event_only_notifies
        (env : Env) (ref : nat) (st st' : State)
        (Hstep : step env (Socket_error ref) st = Some st') :
  same_channels st st'
  /\ calls st'
     = calls st
         ++ map (fun h => (h, [JStr (error_text (getWebSocketUrl env (customServerUrl st)))]))
                (invoked env (handlers_of error_ev (subscribers st))
                   [JStr (error_text (getWebSocketUrl env (customServerUrl st)))])
  /\ console st'
     = console st ++ [(error, "WebSocket connection failed");
                      (error, "WebSocket error object")].
Proof.
  assert (Hst : st' = deliver (onerror env) st).
  { cbn [step] in Hstep.
    destruct (ws_readyState ref st) as [[]|]; try discriminate;
      now injection Hstep as <-. }
  subst st'. split; [apply same_channels_onerror|].
  unfold deliver, onerror, bind, modify, gets, error_text.
  rewrite publish_spec. cbn [snd record_calls].
  destruct (JsString.includes _ "discordsays.com"); split; try reflexivity;
    unfold record_calls; proj; now rewrite <- app_assoc.
Qed.

Lemma error_event_only_notifies_witness :
  exists st',
    step local_env (Socket_error 0) connected_state = Some st'
    /\ same_channels connected_state st'.
Proof.
  exists (deliver (onerror local_env) connected_state).
  assert (H : step local_env (Socket_error 0) connected_state
              = Some (deliver (onerror local_env) connected_state))
    by (vm_compute; reflexivity).
  split; [exact H|].
  exact (proj1 (error_event_only_notifies local_env 0 connected_state _ H)).
Defined.

(** X7: what an inbound frame does is decided by its classification. The
    handler never raises and changes no module variable, timeout or socket.
    A frame of a handled type calls the subscribers of its kind, in order,
    up to the first that raises; a frame of any other type calls nobody and
    logs one line; a frame that does not parse, or parses to [null], calls
    nobody and logs the failure. *)
Theorem onmessage_by_class (env : Env) (rawData : string) (st : State) :
  let st' := deliver (onmessage env rawData) st in
  fst (onmessage env rawData st) = Normal tt
  /\ same_channels st st'
  /\ match classify env rawData with
     | Dispatched k args =>
         calls st'
         = calls st ++ map (fun h => (h, args))
                           (invoked env (handlers_of k (subscribers st)) args)
     | Ignored =>
         calls st' = calls st
         /\ console st' = console st ++ [(info, "Message received")]
     | Malformed =>
         calls st' = calls st
         /\ console st'
            = console st ++ [(info, "Message received");
                             (error, "Error processing message")]
     end.
Proof.
  cbv zeta. split; [apply onmessage_caught|].
  split; [apply same_channels_onmessage|].
  unfold classify, deliver, onmessage, try_catch, bind, modify.
  destruct (JSON_parse env rawData) as [data|]; cbn [ret throw].
  2: { cbn. now rewrite <- app_assoc. }
  unfold inbound, read_type.
  destruct data; cbn [ret throw snd];
    try (cbn; now rewrite <- app_assoc);
    repeat match goal with
    | |- context [if ?b then _ else _] => destruct b
    end;
    try (rewrite publish_spec; destruct (first_raise env _ _); reflexivity);
    try (split; reflexivity).
Qed.

Lemma same_addresses_refl (st : State) : same_addresses st st.
Proof. repeat split. Qed.

Lemma same_addresses_trans (a b c : State) :
  same_addresses a b -> same_addresses b c -> same_addresses a c.
Proof.
  intros (H1 & H2 & H3) (K1 & K2 & K3).
  split; [congruence|]. split; [congruence|]. intros r. now rewrite K3.
Qed.

Lemma same_channels_addresses (st st' : State) :
  same_channels st st' -> same_addresses st st'.
Proof.
  intros (H1 & _ & _ & _ & H5 & _ & _ & H8). repeat split; try assumption.
  intros r. now rewrite H8.
Qed.

Lemma same_addresses_set_readyState (ref : nat) (s : ReadyState) (st : State) :
  same_addresses st (set_readyState ref s st).
Proof.
  repeat split. intros r. unfold ws_view, set_readyState. proj.
  rewrite nth_error_update_socket.
  destruct (Nat.eqb r ref); [|reflexivity].
  now destruct (nth_error (sockets st) r).
Qed.

Lemma same_addresses_ws_close (ref : nat) (st : State) :
  same_addresses st (ws_close ref st).
Proof.
  repeat split. intros r. unfold ws_view, ws_close. proj.
  rewrite nth_error_update_socket.
  destruct (Nat.eqb r ref); [|reflexivity].
  destruct (nth_error (sockets st) r) as [[u [] o]|]; reflexivity.
Qed.

Lemma held_same_addresses (env : Env) (st st' : State) :
  same_addresses st st' -> held_at_current_url env st -> held_at_current_url env st'.
Proof.
  intros (H1 & H2 & H3) H ref Hs. rewrite H1 in Hs.
  destruct (H ref Hs) as [r Hr]. specialize (H3 ref). rewrite Hr in H3.
  destruct (ws_view ref st') as [[u r']|]; [|discriminate].
  cbn in H3. injection H3 as ->. exists r'. now rewrite H2.
Qed.

Lemma held_connect (env : Env) (u : UserInfo) (st : State) :
  held_at_current_url env st ->
  held_at_current_url env (snd (connect env u st)).
Proof.
  intros Hinv.
  destruct (connect_spec env u st) as (C1 & C2 & _ & C4 & _). cbv zeta in *.
  intros ref Hs. rewrite C1 in Hs. unfold ws_view. rewrite C2, C4.
  destruct (accepts env _).
  - injection Hs as <-. exists CONNECTING.
    rewrite nth_error_app2, Nat.sub_diag by lia. reflexivity.
  - rewrite app_nil_r. exact (Hinv ref Hs).
Qed.

Lemma held_no_socket (env : Env) (st : State) :
  socket st = None -> held_at_current_url env st.
Proof. intros H ref Hs. congruence. Qed.

(** The held socket stays addressed at the resolved URL under every task. *)
Lemma held_step (env : Env) (e : Event) (st st' : State) :
  held_at_current_url env st -> step env e st = Some st' ->
  held_at_current_url env st'.
Proof.
  intros Hinv Hstep. destruct e; cbn [step] in *.
  - injection Hstep as <-. now apply held_connect.
  - injection Hstep as <-. apply held_no_socket, disconnect_spec.
  - injection Hstep as <-. unfold deliver. rewrite joinInstance_unfold. cbn [snd].
    apply held_connect, held_no_socket. apply disconnect_spec.
  - injection Hstep as <-. exact Hinv.
  - injection Hstep as <-. exact Hinv.
  - injection Hstep as <-.
    eapply held_same_addresses; [|exact Hinv].
    apply same_channels_addresses, same_channels_send.
  - destruct (ws_readyState ref st) as [[]|]; try discriminate.
    injection Hstep as <-.
    eapply held_same_addresses; [|exact Hinv].
    eapply same_addresses_trans; [apply (same_addresses_set_readyState ref OPEN)|].
    eapply same_addresses_trans;
      [|apply same_channels_addresses, onopen_connected].
    repeat split.
  - destruct (ws_readyState ref st) as [[]|]; try discriminate.
    injection Hstep as <-.
    eapply held_same_addresses; [|exact Hinv].
    apply same_channels_addresses, same_channels_onmessage.
  - assert (Hst : st' = deliver (onerror env) st).
    { destruct (ws_readyState ref st) as [[]|]; try discriminate;
        now injection Hstep as <-. }
    subst st'. eapply held_same_addresses; [|exact Hinv].
    apply same_channels_addresses, same_channels_onerror.
  - assert (Hst : st' = deliver (onclose env) (set_readyState ref CLOSED st)).
    { destruct (ws_readyState ref st) as [[]|]; try discriminate;
        now injection Hstep as <-. }
    subst st'. apply held_no_socket. rewrite onclose_spec. cbv zeta.
    destruct (first_raise env _ _); [reflexivity|].
    destruct (userInfo (set_readyState ref CLOSED st)); reflexivity.
  - destruct (find _ (timers st)) as [t|]; [|discriminate].
    destruct (due t <=? now st)%Z; [|discriminate].
    injection Hstep as <-. rewrite reconnect_tick_unfold.
    assert (H0 : held_at_current_url env
                   (clientLog info "Attempting to reconnect" (clearTimeout h st)))
      by (eapply held_same_addresses; [|exact Hinv]; repeat split).
    destruct (userInfo _) as [u|]; [now apply held_connect | exact H0].
  - destruct (0 <=? dt)%Z; [|discriminate].
    injection Hstep as <-. exact Hinv.
Qed.

(** X8: whatever the application calls and whatever the sockets and timers
    deliver, in any order, the socket the manager holds was opened at the
    address [getConnectionInfo] reports: the override never changes under a
    held socket. *)
Theorem held_socket_at_reported_url
        (env : Env) (es : list Event) (st : State)
        (Hrun : run env es init = Some st) :
  forall ref, socket st = Some ref ->
    exists r, ws_view ref st = Some (info_url (getConnectionInfo env st), r).
Proof.
  change (held_at_current_url env st).
  assert (H0 : held_at_current_url env init) by (now apply held_no_socket).
  revert Hrun H0. generalize init. induction es as [|e rest IH]; intros s0 Hrun H0.
  - cbn in Hrun. now injection Hrun as <-.
  - cbn in Hrun. destruct (step env e s0) as [s1|] eqn:Es; [|discriminate].
    apply (IH s1 Hrun). now apply (held_step env e s0).
Qed.

Lemma held_socket_at_reported_url_witness :
  run local_env session init = Some after_session
  /\ socket after_session = Some 2
  /\ exists r, ws_view 2 after_session = Some ("ws://custom.example.com/ws", r).
Proof.
  assert (Hrun : run local_env session init = Some after_session)
    by (vm_compute; reflexivity).
  split; [exact Hrun|]. split; [vm_compute; reflexivity|].
  destruct (held_socket_at_reported_url local_env session after_session Hrun 2)
    as [r Hr]; [vm_compute; reflexivity|].
  exists r. rewrite Hr. vm_compute. reflexivity.
Defined.

End ManagerExtra.

Module AddressExtra.

Import JsString JsStringFacts WebSocketClient.

Lemma append_assoc (a b c : string) : ((a ++ b) ++ c = a ++ b ++ c)%string.
Proof. induction a as [|x a IH]; cbn; [reflexivity | now rewrite IH]. Qed.

(** A string that ends with "/" does not end with "/ws". *)
Lemma endsWith_slash_not_ws (s : string) : endsWith (s ++ "/") "/ws" = false.
Proof.
  induction s as [|c s IH].
  - reflexivity.
  - cbn [append]. rewrite endsWith_cons, IH.
    destruct (String.eqb_spec (String c (s ++ "/")) "/ws") as [E|]; [|reflexivity].
    injection E as _ E.
    destruct s as [|a [|b s]]; cbn in E; try discriminate.
    injection E as _ E. destruct s; discriminate.
Qed.

Lemma includes_startsWith (s p : string) : startsWith s p = true -> includes s p = true.
Proof. intros H. destruct s; cbn [includes]; now rewrite H. Qed.

Lemma includes_app_r (a b p : string) :
  includes b p = true -> includes (a ++ b) p = true.
Proof.
  intros H. induction a as [|c a IH]; [exact H|].
  cbn [append includes]. rewrite IH. now destruct (startsWith _ p).
Qed.

(** The text before the first dot. *)
Lemma split_head_dot (id rest : string) :
  includes id "." = false -> split_head "."%char (id ++ String "."%char rest) = id.
Proof.
  induction id as [|c id IH]; intros H.
  - reflexivity.
  - cbn [includes startsWith] in H. cbn [append split_head].
    rewrite Ascii.eqb_sym.
    destruct (Ascii.eqb "."%char c); [discriminate|].
    cbn [andb] in H. now rewrite IH.
Qed.

(** X9: the spellings of one server resolve to one address. With or without
    a trailing "/" or "/ws", an override "http://s..." resolves to
    "ws://s/ws" and "https://s..." to "wss://s/ws"; a bare "s" resolves like
    "http://s". *)
Theorem override_spellings (env : Env) (s : string) :
  getWebSocketUrl env (Some ("http://" ++ s ++ "/")) = "ws://" ++ s ++ "/ws"
  /\ getWebSocketUrl env (Some ("http://" ++ s ++ "/ws")) = "ws://" ++ s ++ "/ws"
  /\ getWebSocketUrl env (Some ("https://" ++ s ++ "/")) = "wss://" ++ s ++ "/ws"
  /\ getWebSocketUrl env (Some ("https://" ++ s ++ "/ws")) = "wss://" ++ s ++ "/ws"
  /\ (endsWith s "/" = false -> endsWith s "/ws" = false ->
      getWebSocketUrl env (Some ("http://" ++ s)) = "ws://" ++ s ++ "/ws"
      /\ getWebSocketUrl env (Some ("https://" ++ s)) = "wss://" ++ s ++ "/ws"
      /\ (truthy s = true -> strip_http_scheme s = s -> startsWith s "https" = false ->
          getWebSocketUrl env (Some s) = "ws://" ++ s ++ "/ws")).
Proof.
  assert (Hslash : forall p, (p ++ "//" ++ (s ++ "/") ++ "ws" = p ++ "//" ++ s ++ "/ws")%string).
  { intros p. now rewrite append_assoc. }
  unfold getWebSocketUrl.
  split; [|split; [|split; [|split;
    [|intros Hs Hws; split; [|split; [|intros Ht Hst Hh]]]]]];
    try (cbn [or_else truthy String.eqb append negb startsWith Ascii.eqb
              Bool.eqb andb strip_http_scheme slice];
         rewrite ?endsWith_slash_not_ws, ?endsWith_app; cbn [negb];
         rewrite ?endsWith_app; try reflexivity; try apply (Hslash "ws:"%string);
         try apply (Hslash "wss:"%string); now rewrite Hws, Hs).
  unfold or_else. rewrite Ht, Hst, Hh, Hws, Hs. reflexivity.
Qed.

(** X10: a non-empty override decides the address alone, whatever the page,
    the Discord host or [VITE_WS_HOST]; an empty override counts as none. *)
Theorem override_decides_alone
        (env env' : Env) (custom : string) (Hcustom : truthy custom = true) :
  getWebSocketUrl env (Some custom) = getWebSocketUrl env' (Some custom)
  /\ getWebSocketUrl env (Some "") = getWebSocketUrl env None.
Proof.
  unfold getWebSocketUrl, or_else. rewrite Hcustom. split; reflexivity.
Qed.

Lemma override_decides_alone_witness :
  getWebSocketUrl secure_page (Some "my-app.railway.app")
  = getWebSocketUrl local_env (Some "my-app.railway.app").
Proof.
  apply (override_decides_alone secure_page local_env "my-app.railway.app").
  reflexivity.
Defined.

(** X11: on a Discord host "<id>.discordsays.com", without an override, the
    address is the page's own host under "/.proxy/ws" with the page's
    scheme; [VITE_WS_HOST] is not consulted. *)
Theorem discord_host_url
        (env : Env) (custom : option string) (id : string)
        (Hcustom : or_else custom None = None)
        (Hid : includes id "." = false)
        (Hhost : host (location env) = id ++ ".discordsays.com") :
  getWebSocketUrl env custom
  = page_scheme env ++ "//" ++ host (location env) ++ "/.proxy/ws".
Proof.
  assert (Hinc : includes (id ++ ".discordsays.com") "discordsays.com" = true).
  { replace (id ++ ".discordsays.com")%string
      with ((id ++ ".") ++ "discordsays.com")%string by now rewrite append_assoc.
    now apply includes_app_r. }
  assert (Hsplit : split_head "."%char (id ++ ".discordsays.com") = id)
    by (apply (split_head_dot id "discordsays.com"); exact Hid).
  unfold getWebSocketUrl, page_scheme. rewrite Hcustom, Hhost, Hinc, Hsplit.
  now rewrite append_assoc.
Qed.

Lemma discord_host_url_witness :
  getWebSocketUrl (mkEnv (mkLocation "https:" "1234.discordsays.com")
                         (Some "dev.example.com") (fun _ => None) (fun _ _ => false)
                         (fun _ => None))
                  (Some "")
  = "wss://1234.discordsays.com/.proxy/ws".
Proof.
  apply (discord_host_url
           (mkEnv (mkLocation "https:" "1234.discordsays.com")
                  (Some "dev.example.com") (fun _ => None) (fun _ _ => false)
                  (fun _ => None))
           (Some "") "1234"); reflexivity.
Defined.

(** X12: only "http://" and "https://" are removed from an override. One
    that already names a channel scheme keeps it behind a "ws:" of the
    resolver's own: "wss://h" resolves to an address starting with
    "ws://wss://h". *)
Theorem override_channel_scheme_kept (env : Env) (h : string) :
  startsWith (getWebSocketUrl env (Some ("wss://" ++ h))) ("ws://wss://" ++ h) = true
  /\ startsWith (getWebSocketUrl env (Some ("ws://" ++ h))) ("ws://ws://" ++ h) = true
  /\ channel_scheme (getWebSocketUrl env (Some ("wss://" ++ h))) = "ws:".
Proof.
  assert (Happ : forall a b, startsWith (a ++ b) a = true)
    by (intros a b; apply startsWith_iff; now exists b).
  assert (Hrefl : forall a, startsWith a a = true)
    by (intros a; apply startsWith_iff; exists ""%string; now rewrite append_empty_r).
  unfold getWebSocketUrl.
  cbn [or_else truthy String.eqb append negb startsWith Ascii.eqb
       Bool.eqb andb strip_http_scheme slice].
  split; [|split].
  - destruct (endsWith _ "/ws"); cbn [negb]; [|destruct (endsWith _ "/")];
      cbn [append startsWith Ascii.eqb Bool.eqb andb]; auto.
  - destruct (endsWith _ "/ws"); cbn [negb]; [|destruct (endsWith _ "/")];
      cbn [append startsWith Ascii.eqb Bool.eqb andb]; auto.
  - destruct (endsWith _ "/ws"); cbn [negb]; [|destruct (endsWith _ "/")];
      reflexivity.
Qed.

End AddressExtra.

Module PresenceExtra.

Import Presence.

Local Open Scope list_scope.

Section Reconciled.

Variable JSON_stringify : JSValue -> string.
Variable to_string : JSValue -> string.

(** What one call does to the stored set and to the view. *)
Lemma fetch_resolved_effect (v : JSValue) (st : State) :
  let st' := fetchParticipants JSON_stringify to_string (Resolved v) st in
  participants st' = (if recognized v then extracted v else JArr [])
  /\ rendered st' = rendered st ++ [participants st'].
Proof.
  cbv zeta. unfold recognized, extracted, fetchParticipants.
  destruct (Js.isArray v); cbn [orb]; [split; reflexivity|].
  destruct (Js.truthy v && Js.typeof_object v); cbn [andb];
    [|split; reflexivity].
  destruct (Js.truthy (Js.get v "users")); cbn [orb]; [split; reflexivity|].
  destruct (Js.truthy (Js.get v "participants")); split; reflexivity.
Qed.

Lemma update_effect (v : JSValue) (st : State) :
  let st' := updateParticipants JSON_stringify to_string v st in
  if recognized v
  then participants st' = extracted v /\ rendered st' = rendered st ++ [extracted v]
  else participants st' = participants st /\ rendered st' = rendered st.
Proof.
  cbv zeta. unfold recognized, extracted, updateParticipants.
  destruct (Js.isArray v); cbn [orb]; [split; reflexivity|].
  destruct (Js.truthy v && Js.typeof_object v); cbn [andb];
    [|split; reflexivity].
  destruct (Js.truthy (Js.get v "users")); cbn [orb]; [split; reflexivity|].
  destruct (Js.truthy (Js.get v "participants")); split; reflexivity.
Qed.

(** X13: the initial fetch and the update agree on every payload they
    recognize: both store and render the same extracted value, and what is
    found under "users" or "participants" is stored as it is, whatever its
    type. They differ on the others only: the fetch stores and renders the
    empty set, the update leaves the stored set and the view alone. A
    rejected fetch stores and renders the empty set. *)
Theorem fetch_and_update_agree (v : JSValue) (st : State) :
  let fetched := fetchParticipants JSON_stringify to_string (Resolved v) st in
  let updated := updateParticipants JSON_stringify to_string v st in
  (if recognized v
   then participants fetched = extracted v
        /\ participants updated = extracted v
        /\ rendered fetched = rendered st ++ [extracted v]
        /\ rendered updated = rendered st ++ [extracted v]
   else participants fetched = JArr []
        /\ rendered fetched = rendered st ++ [JArr []]
        /\ participants updated = participants st
        /\ rendered updated = rendered st)
  /\ (forall message stack,
        let failed := fetchParticipants JSON_stringify to_string
                        (Rejected message stack) st in
        participants failed = JArr []
        /\ rendered failed = rendered st ++ [JArr []]).
Proof.
  cbv zeta.
  destruct (fetch_resolved_effect v st) as [F1 F2].
  pose proof (update_effect v st) as U. cbv zeta in *.
  split; [|split; reflexivity].
  rewrite F1 in F2. destruct (recognized v).
  - destruct U as [U1 U2]. now rewrite F1.
  - destruct U as [U1 U2]. now rewrite F1.
Qed.

(** X14: after any sequence of fetches and updates, the set shown last is
    the stored one, and nothing is rendered more often than there were
    calls. *)
Theorem view_shows_stored_set (ops : list Op) :
  let st := apply_ops JSON_stringify to_string ops init in
  last (rendered st) (JArr []) = participants st
  /\ length (rendered st) <= length ops.
Proof.
  cbv zeta. unfold apply_ops.
  assert (H : forall st,
             last (rendered st) (JArr []) = participants st ->
             let st' := fold_left (fun st o => apply_op JSON_stringify to_string o st)
                                  ops st in
             last (rendered st') (JArr []) = participants st'
             /\ length (rendered st') <= length (rendered st) + length ops).
  { induction ops as [|o rest IH]; intros st Hst; cbv zeta; cbn [fold_left length].
    - split; [exact Hst | lia].
    - assert (Hstep : last (rendered (apply_op JSON_stringify to_string o st)) (JArr [])
                      = participants (apply_op JSON_stringify to_string o st)
                      /\ length (rendered (apply_op JSON_stringify to_string o st))
                         <= S (length (rendered st))).
      { destruct o as [[v|m s]|v]; cbn [apply_op].
        - destruct (fetch_resolved_effect v st) as [_ F2]. cbv zeta in F2.
          rewrite F2, last_last, length_app. cbn. split; [reflexivity | lia].
        - cbn. rewrite last_last, length_app. cbn. split; [reflexivity | lia].
        - pose proof (update_effect v st) as U. cbv zeta in U.
          destruct (recognized v); destruct U as [U1 U2]; rewrite U1, U2.
          + rewrite last_last, length_app. cbn. split; [reflexivity | lia].
          + split; [exact Hst | lia]. }
      destruct Hstep as [H1 H2].
      destruct (IH _ H1) as [I1 I2]. cbv zeta in I1, I2.
      split; [exact I1 | lia]. }
  destruct (H init eq_refl) as [H1 H2]. cbv zeta in H1, H2.
  split; [exact H1 | exact H2].
Qed.

End Reconciled.

End PresenceExtra.

Module RelayExtra.

Import Relay.

Local Open Scope list_scope.

Lemma last_nonempty (y : Z) (rest : list Z) (a b : Z) :
  last (y :: rest) a = last (y :: rest) b.
Proof.
  revert y. induction rest as [|z rest IH]; intros y; [reflexivity|].
  change (last (z :: rest) a = last (z :: rest) b). apply IH.
Qed.

Lemma spaced_snoc (from t : Z) (times : list Z) :
  spaced from times -> (last times from + 5000 <= t)%Z ->
  spaced from (times ++ [t]).
Proof.
  revert from. induction times as [|x rest IH]; intros from Hs Hl.
  - cbn in *. split; [exact Hl | exact I].
  - destruct Hs as [Hx Hrest]. cbn [app spaced]. split; [exact Hx|].
    apply IH; [exact Hrest|].
    destruct rest as [|y rest]; [exact Hl|].
    rewrite (last_nonempty y rest x from). exact Hl.
Qed.

Lemma scheduled_start (t0 : Z) : scheduled t0 (start t0).
Proof.
  split; cbn; try lia; try exact I; try discriminate.
  intros d Hd. injection Hd as <-. repeat split. lia.
Qed.

(** Every task of the event loop keeps the probe scheduled. *)
Lemma scheduled_step (t0 : Z) (e : Event) (st st' : State) :
  scheduled t0 st -> step e st = Some st' -> scheduled t0 st'.
Proof.
  intros [S1 S2 S3 S4 S5 S6 S7] Hstep. destruct e as [dt|state]; cbn [step] in Hstep.
  - destruct (Z.leb_spec 0 dt) as [Hdt|]; [|discriminate].
    injection Hstep as <-.
    split; cbn [connectionAttempts mockAblyFallback timer now debug_log
                checked_at installs]; try assumption.
    lia.
  - destruct (timer st) as [d|] eqn:Et; [|discriminate].
    destruct (Z.leb_spec d (now st)) as [Hd|]; [|discriminate].
    injection Hstep as <-.
    destruct (S5 d eq_refl) as (D1 & D2 & D3).
    assert (Hinst : is_installed st = false) by (unfold is_installed; now rewrite D3).
    rewrite Hinst in S6.
    assert (Hsp : spaced t0 (checked_at st ++ [now st]))
      by (apply spaced_snoc; [exact S3 | lia]).
    unfold checkConnectionState.
    cbn [connectionAttempts mockAblyFallback timer now debug_log checked_at installs].
    destruct (String.eqb state "connected").
    + split; unfold is_installed, logDebug;
        cbn [connectionAttempts mockAblyFallback timer now debug_log
             checked_at installs];
        rewrite ?length_app, ?last_last, ?D3; cbn [length];
        try assumption; try lia; try discriminate.
    + destruct (Nat.ltb_spec 3 (S (connectionAttempts st))) as [Hlast|Hmore].
      * split; unfold is_installed, logDebug;
          cbn [connectionAttempts mockAblyFallback timer now debug_log
               checked_at installs];
          rewrite ?length_app, ?last_last; cbn [length];
          try assumption; try lia; try discriminate.
        intros _. split; [lia | reflexivity].
      * split; unfold is_installed, logDebug, setTimeout;
          cbn [connectionAttempts mockAblyFallback timer now debug_log
               checked_at installs];
          rewrite ?length_app, ?last_last, ?D3; cbn [length];
          try assumption; try lia; try discriminate.
        intros d' Hd'. injection Hd' as <-.
        split; [reflexivity|]. split; [lia | reflexivity].
Qed.

Lemma scheduled_run (t0 : Z) (es : list Event) (st st' : State) :
  scheduled t0 st -> run_events es st = Some st' -> scheduled t0 st'.
Proof.
  revert st. induction es as [|e rest IH]; intros st Hst Hrun; cbn in Hrun.
  - now injection Hrun as <-.
  - destruct (step e st) as [st1|] eqn:Es; [|discriminate].
    apply (IH st1); [|exact Hrun]. now apply (scheduled_step t0 e st).
Qed.

(** X15: under any schedule of the event loop, however late the checks run
    and whatever they observe, the probe runs at most four checks, the first
    at least 5000 ms after the start and each at least 5000 ms after the
    one before; the substitute is installed at most once, and only by the
    fourth check, after which no check is pending. *)
Theorem probe_any_schedule
        (t0 : Z) (es : list Event) (st : State)
        (Hrun : run_events es (start t0) = Some st) :
  connectionAttempts st <= 4
  /\ length (checked_at st) = connectionAttempts st
  /\ spaced t0 (checked_at st)
  /\ installs st = (if is_installed st then 1 else 0)
  /\ (is_installed st = true -> connectionAttempts st = 4 /\ is_pending st = false)
  /\ (is_pending st = true -> connectionAttempts st <= 3).
Proof.
  destruct (scheduled_run t0 es (start t0) st (scheduled_start t0) Hrun)
    as [S1 S2 S3 S4 S5 S6 S7].
  split; [exact S2|]. split; [exact S1|]. split; [exact S3|]. split; [exact S6|].
  split.
  - intros H. destruct (S7 H) as [Hc Ht]. split; [exact Hc|].
    unfold is_pending. now rewrite Ht.
  - intros H. unfold is_pending in H.
    destruct (timer st) as [d|] eqn:Et; [|discriminate].
    now destruct (S5 d eq_refl) as (_ & D2 & _).
Qed.

Lemma probe_any_schedule_witness :
  exists st,
    run_events [Tick 7000; Check_fire "connecting"; Tick 9000; Check_fire "failed";
                Tick 5000; Check_fire "suspended"; Tick 5500; Check_fire "connecting";
                Tick 60000] (start 0) = Some st
    /\ checked_at st = [7000; 16000; 21000; 26500]%Z
    /\ spaced 0 (checked_at st)
    /\ installs st = 1.
Proof.
  eexists. split; [vm_compute; reflexivity|].
  split; [reflexivity|].
  match goal with
  | |- spaced 0 (checked_at ?s) /\ _ =>
      pose proof (probe_any_schedule 0
        [Tick 7000; Check_fire "connecting"; Tick 9000; Check_fire "failed";
         Tick 5000; Check_fire "suspended"; Tick 5500; Check_fire "connecting";
         Tick 60000] s ltac:(vm_compute; reflexivity)) as (_ & _ & H3 & H4 & _)
  end.
  split; [exact H3 | exact H4].
Defined.

End RelayExtra.

Module UtilsSpec.

Import Utils.

Local Open Scope list_scope.

Lemma truthy_nonempty (s : string) : s <> ""%string -> JsString.truthy s = true.
Proof. intros H. unfold JsString.truthy. now destruct s. Qed.

Lemma length_substring (n m : nat) (s : string) :
  String.length (String.substring n m s) = Nat.min m (String.length s - n).
Proof.
  revert n m. induction s as [|c s IH]; intros n m.
  - destruct n, m; cbn; lia.
  - destruct n as [|n]; [destruct m as [|m]|]; cbn [String.substring String.length].
    + reflexivity.
    + rewrite IH. lia.
    + rewrite IH. reflexivity.
Qed.

Section Session.

Variable platform : Platform.

(** Reading back what was just written. *)
Lemma read_after_write
      (key : string) (value defaultValue : JSValue) (text : string) (st : State) :
  denied platform = false ->
  JSON_stringify platform value = Some text ->
  text <> ""%string ->
  JSON_parse platform text = Some value ->
  refuses platform key text = false ->
  getSessionItem platform key defaultValue (setSessionItem platform key value st)
  = (value, setSessionItem platform key value st).
Proof.
  intros Hgranted Hstringify Htext Hparse Haccepted.
  unfold setSessionItem, getSessionItem, getItem, setItem.
  rewrite Hstringify, Hgranted, Haccepted. cbn [orb storage errors].
  now rewrite String.eqb_refl, (truthy_nonempty _ Htext), Hparse.
Qed.

(** A truthy answer to a falsy default was parsed from the storage, which
    logs nothing. *)
Lemma read_truthy (key : string) (st : State) :
  Js.truthy (fst (getSessionItem platform key JNull st)) = true ->
  snd (getSessionItem platform key JNull st) = st.
Proof.
  unfold getSessionItem.
  destruct (denied platform); [discriminate|].
  destruct (getItem key (storage st)) as [item|]; [|reflexivity].
  destruct (JsString.truthy item); [|reflexivity].
  destruct (JSON_parse platform item); [reflexivity | discriminate].
Qed.

(** X16: a value stored by [setSessionItem] is the one [getSessionItem]
    reads back, which changes nothing; the write logs nothing and the items
    under other keys read as before. This needs a platform that grants the
    storage, accepts the write and whose parser inverts its serializer on
    that value. *)
Theorem session_item_round_trip
        (key : string) (value defaultValue : JSValue) (text : string) (st : State)
        (Hgranted : denied platform = false)
        (Hstringify : JSON_stringify platform value = Some text)
        (Htext : text <> ""%string)
        (Hparse : JSON_parse platform text = Some value)
        (Haccepted : refuses platform key text = false) :
  let st' := setSessionItem platform key value st in
  getSessionItem platform key defaultValue st' = (value, st')
  /\ errors st' = errors st
  /\ forall key', key' <> key ->
       fst (getSessionItem platform key' defaultValue st')
       = fst (getSessionItem platform key' defaultValue st).
Proof.
  cbv zeta. split; [now apply (read_after_write key value defaultValue text)|].
  unfold setSessionItem, getSessionItem, getItem, setItem.
  rewrite Hstringify, Hgranted, Haccepted. cbn [orb storage errors].
  split; [reflexivity|].
  intros key' Hneq.
  destruct (String.eqb_spec key' key) as [E|_]; [contradiction|].
  destruct (storage st key') as [item|]; [|reflexivity].
  destruct (JsString.truthy item); [|reflexivity].
  destruct (JSON_parse platform item); reflexivity.
Qed.


(** X18: the local user id is created once. When the generated id is not
    empty and the platform stores it faithfully, a second call answers the
    id of the first and changes nothing, whatever random text it is given.
    The generated id has at most 8 characters, and it is empty when the
    random text has fewer than three. *)
Theorem local_user_id_is_stable
        (random1 random2 text : string) (st : State)
        (Hgranted : denied platform = false)
        (Hid : generateUserId random1 <> ""%string)
        (Hstringify : JSON_stringify platform (JStr (generateUserId random1)) = Some text)
        (Htext : text <> ""%string)
        (Hparse : JSON_parse platform text = Some (JStr (generateUserId random1)))
        (Haccepted : refuses platform "local_user_id" text = false) :
  getOrCreateLocalUserId platform random2
    (snd (getOrCreateLocalUserId platform random1 st))
  = getOrCreateLocalUserId platform random1 st
  /\ Js.truthy (fst (getOrCreateLocalUserId platform random1 st)) = true
  /\ (forall r, String.length (generateUserId r) <= 8)
  /\ (forall r, String.length r <= 2 -> generateUserId r = ""%string).
Proof.
  split; [|split; [|split]].
  - unfold getOrCreateLocalUserId at 2 3.
    pose proof (read_truthy "local_user_id" st) as Hread.
    destruct (getSessionItem platform "local_user_id" JNull st)
      as [userId st1] eqn:Eget.
    cbn [fst snd] in Hread.
    destruct (Js.truthy userId) eqn:Etruthy; cbn [negb fst snd].
    + rewrite (Hread eq_refl). unfold getOrCreateLocalUserId.
      rewrite Eget, Etruthy. cbn [negb]. now rewrite (Hread eq_refl).
    + unfold getOrCreateLocalUserId.
      rewrite (read_after_write "local_user_id" (JStr (generateUserId random1))
                 JNull text st1 Hgranted Hstringify Htext Hparse Haccepted).
      cbn [Js.truthy]. now rewrite (truthy_nonempty _ Hid).
  - unfold getOrCreateLocalUserId.
    destruct (getSessionItem platform "local_user_id" JNull st) as [userId st1].
    destruct (Js.truthy userId) eqn:Etruthy; cbn [negb fst]; [exact Etruthy|].
    cbn [Js.truthy]. now apply truthy_nonempty.
  - intros r. unfold generateUserId. rewrite length_substring. lia.
  - intros r Hr. unfold generateUserId.
    pose proof (length_substring 2 8 r) as Hl.
    destruct (String.substring 2 8 r); [reflexivity|].
    cbn [String.length] in Hl. lia.
Qed.

End Session.

Lemma session_item_round_trip_witness :
  let st := setSessionItem toy_platform "theme" (JStr "dark") (mkState no_items []) in
  fst (getSessionItem toy_platform "theme" JNull st) = JStr "dark"
  /\ errors st = [].
Proof.
  cbv zeta.
  destruct (session_item_round_trip toy_platform "theme" (JStr "dark") JNull "'dark"
              (mkState no_items []) eq_refl eq_refl ltac:(discriminate) eq_refl eq_refl)
    as (H1 & H2 & _).
  cbv zeta in H1, H2. rewrite H1. split; [reflexivity | exact H2].
Defined.

Lemma local_user_id_is_stable_witness :
  let first := getOrCreateLocalUserId toy_platform "0.4fzyo82mvyr" (mkState no_items []) in
  fst first = JStr "4fzyo82m"
  /\ getOrCreateLocalUserId toy_platform "0.9zzzzzzzzzz" (snd first) = first.
Proof.
  cbv zeta. split; [reflexivity|].
  apply (local_user_id_is_stable toy_platform "0.4fzyo82mvyr" "0.9zzzzzzzzzz"
           "'4fzyo82m" (mkState no_items []));
    try reflexivity; discriminate.
Defined.

End UtilsSpec.

Module AppSpec.

Import WebSocketClient ManagerSpec ManagerExtra App.

Local Open Scope list_scope.

Lemma send_outbox (ty : string) (data : list (string * JSValue))
      (st : WebSocketClient.State) (r : nat) :
  ws_outbox r (snd (send ty data st))
  = if held_open st && match socket st with
                       | Some ref => Nat.eqb r ref
                       | None => false
                       end
    then option_map (fun o => o ++ [frame ty data]) (ws_outbox r st)
    else ws_outbox r st.
Proof.
  unfold send, held_open.
  destruct (socket st) as [ref|]; [|reflexivity].
  destruct (ws_readyState ref st) as [[]|] eqn:E; try reflexivity.
  cbn [snd andb]. unfold ws_outbox, ws_send. proj.
  rewrite nth_error_update_socket.
  destruct (Nat.eqb r ref); [|reflexivity].
  now destruct (nth_error (sockets st) r).
Qed.

(** The channels that are live after [connect]: those that were, and the new
    one. *)
Lemma live_refs_connect (env : Env) (u : UserInfo) (st : WebSocketClient.State) :
  live_refs (snd (connect env u st))
  = live_refs st
      ++ (if accepts env (getWebSocketUrl env (customServerUrl st))
          then [length (sockets st)] else []).
Proof.
  destruct (connect_spec env u st) as (_ & C2 & _ & _ & _ & C6 & _).
  cbv zeta in *.
  unfold live_refs. rewrite C2, length_app.
  destruct (accepts env _); cbn [length andb] in *.
  - rewrite Nat.add_1_r, seq_S, filter_app. cbn [Nat.add filter].
    f_equal.
    + apply filter_ext_in. intros r Hr. apply in_seq in Hr.
      unfold is_live_ref. rewrite C6.
      destruct (Nat.eqb_spec r (length (sockets st))); [lia | reflexivity].
    + unfold is_live_ref. now rewrite C6, Nat.eqb_refl.
  - rewrite Nat.add_0_r, app_nil_r.
    apply filter_ext. intros r. unfold is_live_ref. now rewrite C6.
Qed.

Lemma outbox_connect (env : Env) (u : UserInfo) (st : WebSocketClient.State) (r : nat) :
  ws_outbox r (snd (connect env u st))
  = if accepts env (getWebSocketUrl env (customServerUrl st))
       && Nat.eqb r (length (sockets st))
    then Some [] else ws_outbox r st.
Proof.
  destruct (connect_spec env u st) as (_ & C2 & _). cbv zeta in C2.
  unfold ws_outbox. rewrite C2.
  destruct (accepts env _); cbn [andb]; [|now rewrite app_nil_r].
  destruct (Nat.eqb_spec r (length (sockets st))) as [->|Hne].
  - now rewrite nth_error_app2, Nat.sub_diag by lia.
  - destruct (Nat.lt_ge_cases r (length (sockets st))) as [Hlt|Hge].
    + now rewrite nth_error_app1 by exact Hlt.
    + rewrite nth_error_app2 by exact Hge.
      destruct (r - length (sockets st)) as [|k] eqn:Ek; [lia|].
      cbn. destruct k; cbn.
      all: now rewrite (proj2 (nth_error_None (sockets st) r)) by exact Hge.
Qed.

(** X19: a chat message submitted while the manager reports a connection is
    shown as the user's own and the input is cleared, whether or not it was
    sent: it is appended to the outbox of the held socket when that socket
    is open, and to no outbox otherwise. The connection is left as it is. *)
Theorem submit_shows_message_as_sent
        (env : Env) (message : string) (app app' : App.State)
        (Hdone : handleMessageSubmit env message app = Done app')
        (Hconnected : isConnected (manager app) = true) :
  same_channels (manager app) (manager app')
  /\ ui app'
     = ui app
         ++ match JsString.or_else (App.userId app) None with
            | Some u => [displayMessage u message true]
            | None => []
            end
         ++ [clearInput]
  /\ forall r,
       ws_outbox r (manager app')
       = if held_open (manager app)
            && match socket (manager app) with
               | Some ref => Nat.eqb r ref
               | None => false
               end
         then option_map
                (fun o => o ++ [JObj [("type", JStr "message");
                                      ("message", JStr message)]])
                (ws_outbox r (manager app))
         else ws_outbox r (manager app).
Proof.
  unfold handleMessageSubmit in Hdone.
  destruct (String.eqb message "__DEBUG_TEST_CONNECTION__"); [discriminate|].
  destruct (String.eqb message "__INFO_COMMAND__"); [discriminate|].
  destruct (String.eqb message "__JOIN_COMMAND__"); [discriminate|].
  rewrite Hconnected in Hdone. injection Hdone as <-.
  cbn [with_manager App.userId].
  destruct (JsString.or_else (App.userId app) None) as [u|];
    cbn [show with_manager manager ui App.userId App.username params].
  - split; [apply same_channels_send|]. split; [now rewrite <- app_assoc|].
    intros r. apply (send_outbox "message" [("message", JStr message)]).
  - split; [apply same_channels_send|]. split; [reflexivity|].
    intros r. apply (send_outbox "message" [("message", JStr message)]).
Qed.

Lemma submit_shows_message_as_sent_witness :
  exists app',
    handleMessageSubmit local_env "are you there?" crossed_page = Done app'
    /\ isConnected (manager crossed_page) = true
    /\ held_open (manager crossed_page) = false
    /\ ui app' = ui crossed_page
                   ++ [displayMessage "u1" "are you there?" true; clearInput]
    /\ ws_outbox 1 (manager app') = Some [].
Proof.
  eexists. split; [vm_compute; reflexivity|].
  split; [reflexivity|]. split; [reflexivity|].
  match goal with
  | |- ui ?a = _ /\ _ =>
      destruct (submit_shows_message_as_sent local_env "are you there?"
                  crossed_page a ltac:(vm_compute; reflexivity) eq_refl)
        as (_ & H2 & H3)
  end.
  split; [exact H2|]. rewrite H3. reflexivity.
Defined.

(** X20: a chat message submitted while the manager reports no connection
    is dropped: it reaches no outbox and the input is not cleared. When the
    page has an identity, [connect] is called whatever the state of the held
    socket, so a channel that is still connecting, or open, stays live beside
    the new one, which becomes the held one; when the constructor rejects the
    address, the live channels and the held socket stay as they were. *)
Theorem submit_while_disconnected_reconnects
        (env : Env) (message : string) (app app' : App.State)
        (Hdone : handleMessageSubmit env message app = Done app')
        (Hdisconnected : isConnected (manager app) = false) :
  (forall r, r < length (sockets (manager app)) ->
     ws_outbox r (manager app') = ws_outbox r (manager app))
  /\ (forall r, length (sockets (manager app)) <= r ->
        ws_outbox r (manager app') = None \/ ws_outbox r (manager app') = Some [])
  /\ ~ In clearInput (skipn (length (ui app)) (ui app'))
  /\ match identity app with
     | Some user =>
         manager app' = snd (connect env user (manager app))
         /\ if accepts env (getWebSocketUrl env (customServerUrl (manager app)))
            then live_refs (manager app')
                 = live_refs (manager app) ++ [length (sockets (manager app))]
                 /\ socket (manager app') = Some (length (sockets (manager app)))
            else live_refs (manager app') = live_refs (manager app)
                 /\ socket (manager app') = socket (manager app)
     | None => manager app' = manager app
     end.
Proof.
  unfold handleMessageSubmit in Hdone.
  destruct (String.eqb message "__DEBUG_TEST_CONNECTION__"); [discriminate|].
  destruct (String.eqb message "__INFO_COMMAND__"); [discriminate|].
  destruct (String.eqb message "__JOIN_COMMAND__"); [discriminate|].
  rewrite Hdisconnected in Hdone. injection Hdone as <-.
  assert (Hnone : forall r, length (sockets (manager app)) <= r ->
                    ws_outbox r (manager app) = None).
  { intros r Hr. unfold ws_outbox.
    now rewrite (proj2 (nth_error_None (sockets (manager app)) r)) by exact Hr. }
  unfold connectWebSocket, identity.
  cbn [show with_manager manager ui App.userId App.username params].
  destruct (params app) as [p|];
    cbn [show with_manager manager ui App.userId App.username params].
  2: { rewrite <- ?app_assoc, skipn_app, skipn_all, Nat.sub_diag. cbn [skipn List.app].
       repeat split; auto.
       - intros [H|[H|[]]]; discriminate.
       - now destruct (JsString.or_else (App.userId app) None),
                      (JsString.or_else (App.username app) None). }
  destruct (JsString.or_else (App.userId app) None) as [u|];
    [destruct (JsString.or_else (App.username app) None) as [n|]|];
    cbn [show with_manager manager ui App.userId App.username params];
    rewrite <- ?app_assoc, skipn_app, skipn_all, Nat.sub_diag; cbn [skipn List.app].
  - unfold deliver.
    split; [|split; [|split; [|split]]].
    + intros r Hr. rewrite outbox_connect.
      destruct (Nat.eqb_spec r (length (sockets (manager app))));
        [lia | now rewrite Bool.andb_false_r].
    + intros r Hr. rewrite outbox_connect.
      destruct (accepts env _ && Nat.eqb r (length (sockets (manager app))));
        [now right|].
      left. now apply Hnone.
    + intros [H|[H|[H|[]]]]; discriminate.
    + reflexivity.
    + pose proof (live_refs_connect env
                    (mkUserInfo u n (Some (param_instanceId p))
                       (JsString.or_else (param_activityId p) None))
                    (manager app)) as Hl.
      destruct (connect_spec env
                  (mkUserInfo u n (Some (param_instanceId p))
                     (JsString.or_else (param_activityId p) None))
                  (manager app)) as (C1 & _).
      cbv zeta in C1.
      destruct (accepts env _).
      * split; [exact Hl | exact C1].
      * rewrite app_nil_r in Hl. split; [exact Hl | exact C1].
  - repeat split; auto. intros [H|[H|[H|[]]]]; discriminate.
  - repeat split; auto. intros [H|[H|[H|[]]]]; discriminate.
Qed.

Lemma submit_while_disconnected_reconnects_witness :
  exists app',
    handleMessageSubmit local_env "hello" connecting_page = Done app'
    /\ live_refs (manager connecting_page) = [0]
    /\ live_refs (manager app') = [0; 1]
    /\ socket (manager app') = Some 1.
Proof.
  eexists. split; [vm_compute; reflexivity|].
  split; [reflexivity|].
  match goal with
  | |- live_refs (manager ?a) = _ /\ _ =>
      pose proof (submit_while_disconnected_reconnects local_env "hello"
                    connecting_page a ltac:(vm_compute; reflexivity) eq_refl)
        as (_ & _ & _ & H4)
  end.
  destruct H4 as (_ & H5 & H6).
  split; [rewrite H5; reflexivity | exact H6].
Defined.

End AppSpec.
